(** * Rolling empirical-distribution spike classifier

    A shallow embedding of [src/statistical/identify_spikes.py]: the
    module constants, [build_histogram], the scan loop of the main block
    and the confusion matrix with its derived metrics; and of the
    grouping of stations in [src/data_cleaning/data_cleaner.py].

    Numbers.  A Python/numpy float is modelled by [float]: an exact
    rational, a NaN or one of the two infinities.  The rounding of IEEE
    doubles, their overflow to an infinity and the sign of zero are
    outside the model: a sum or a quotient of finite values is the exact
    rational, kept in lowest terms ([Qred]).  For that reason no theorem
    below says that the builder or the scan returns on every input; the
    theorems are about what is returned.  Python integers
    are [Z] (or [nat] for lengths and counts).  Exceptions are explicit:
    a computation that can raise returns a [result]. *)

From Stdlib Require Import ZArith QArith Qround Qabs Lia Lqa List Bool Sorted.
From stdpp Require Import base list sorting.

Open Scope Z_scope.

(** ** Floats *)

Inductive float : Type :=
| Fin (q : Q)
| NaN
| PInf
| NInf.

(** [numpy.isfinite] *)
Definition isfinite (x : float) : bool :=
  match x with Fin _ => true | _ => false end.

(** [pandas.isnull] on a scalar float: true for NaN only. *)
Definition isnull (x : float) : bool :=
  match x with NaN => true | _ => false end.

Definition Qlt_bool (a b : Q) : bool := negb (Qle_bool b a).

Definition fneg (x : float) : float :=
  match x with
  | Fin q => Fin (- q)
  | NaN => NaN
  | PInf => NInf
  | NInf => PInf
  end.

Definition fadd (x y : float) : float :=
  match x, y with
  | NaN, _ | _, NaN => NaN
  | Fin a, Fin b => Fin (Qred (a + b))
  | PInf, NInf | NInf, PInf => NaN
  | PInf, _ | _, PInf => PInf
  | NInf, _ | _, NInf => NInf
  end.

Definition fsub (x y : float) : float := fadd x (fneg y).

(** An infinity scaled by a rational: the sign decides, zero gives NaN. *)
Definition inf_scaled (positive : bool) (q : Q) : float :=
  if Qeq_bool q 0 then NaN
  else if eqb positive (Qlt_bool 0 q) then PInf else NInf.

Definition fmul (x y : float) : float :=
  match x, y with
  | NaN, _ | _, NaN => NaN
  | Fin a, Fin b => Fin (Qred (a * b))
  | PInf, Fin b | Fin b, PInf => inf_scaled true b
  | NInf, Fin b | Fin b, NInf => inf_scaled false b
  | PInf, PInf | NInf, NInf => PInf
  | PInf, NInf | NInf, PInf => NInf
  end.

(** numpy float division: no exception, [0/0] is NaN and [a/0] an
    infinity. *)
Definition fdiv (x y : float) : float :=
  match x, y with
  | NaN, _ | _, NaN => NaN
  | Fin a, Fin b =>
      if Qeq_bool b 0
      then (if Qeq_bool a 0 then NaN else if Qlt_bool 0 a then PInf else NInf)
      else Fin (Qred (a / b))
  | Fin _, _ => Fin 0
  | PInf, Fin b => if Qle_bool 0 b then PInf else NInf
  | NInf, Fin b => if Qle_bool 0 b then NInf else PInf
  | _, _ => NaN
  end.

Definition fabs (x : float) : float :=
  match x with
  | Fin q => Fin (Qabs q)
  | NaN => NaN
  | PInf | NInf => PInf
  end.

(** Comparisons: every comparison with NaN is false. *)
Definition fle (x y : float) : bool :=
  match x, y with
  | NaN, _ | _, NaN => false
  | Fin a, Fin b => Qle_bool a b
  | NInf, _ | _, PInf => true
  | _, _ => false
  end.

Definition flt (x y : float) : bool :=
  match x, y with
  | NaN, _ | _, NaN => false
  | Fin a, Fin b => Qlt_bool a b
  | PInf, _ | _, NInf => false
  | _, _ => true
  end.

Definition fgt (x y : float) : bool := flt y x.

Definition feq (x y : float) : bool :=
  match x, y with
  | Fin a, Fin b => Qeq_bool a b
  | PInf, PInf | NInf, NInf => true
  | _, _ => false
  end.

Definition of_nat (n : nat) : Q := inject_Z (Z.of_nat n).

(** ** Exceptions *)

Inductive exn : Type := ValueError | IndexError | ZeroDivisionError.

Inductive result (A : Type) : Type :=
| Ok (a : A)
| Raise (e : exn).
Arguments Ok {A} a.
Arguments Raise {A} e.

#[global] Instance result_ret : MRet result := fun A a => Ok a.
#[global] Instance result_bind : MBind result := fun A B k c =>
  match c with
  | Ok a => k a
  | Raise e => Raise e
  end.

(** ** Module constants *)

Record Config : Type := {
  interval : Z;          (* lookback length in samples *)
  min_entries : Z;       (* minimum number of points for an analysis *)
  nbins : nat;           (* histogram bin count *)
  cdf_limits : Q * Q;    (* target probabilities *)
  buffer : Q             (* allowance in metres *)
}.

(** [interval = int (period * 24 * 60 / 6)] *)
Definition interval_of_period (period : Z) : Z := (period * 24 * 60) / 6.

Definition default_config : Config := {|
  interval := interval_of_period 1;
  min_entries := 100;
  nbins := 80;
  cdf_limits := (23 # 100000, 99977 # 100000)%Q;
  buffer := (15 # 100)%Q
|}.

(** ** The data frame *)

Record Row : Type := {
  Time : Z;
  raw : float;
  accepted : float
}.

(** [data['delta'] = data.accepted - data.raw] *)
Definition delta (r : Row) : float := fsub (accepted r) (raw r).

(** [data['true_is_spike'] = abs (data.delta) > buffer] *)
Definition true_is_spike (cfg : Config) (r : Row) : bool :=
  fgt (fabs (delta r)) (Fin (buffer cfg)).

(** [l[b:e]] / [frame.iloc[b:e, :]] for bounds that are not negative (the
    scan clamps both with [max (0, _)]): the elements at positions
    [b], ..., [e-1] that exist. *)
Definition iloc {A : Type} (l : list A) (b e : Z) : list A :=
  take (Z.to_nat e - Z.to_nat b)%nat (drop (Z.to_nat b) l).

(** ** numpy and scipy primitives used by [build_histogram] *)

Module Numpy.

(** [a[mask]]: boolean indexing; the mask must be as long as the array. *)
Fixpoint select {A : Type} (a : list A) (mask : list bool) : list A :=
  match a, mask with
  | x :: a', m :: mask' => if m then x :: select a' mask' else select a' mask'
  | _, _ => []
  end.

Definition bool_index {A : Type} (a : list A) (mask : list bool) : result (list A) :=
  if (length a =? length mask)%nat then Ok (select a mask) else Raise IndexError.

(** [numpy.logical_and] on one-dimensional arrays: equal lengths
    combine pointwise, a length-one operand is broadcast, anything else
    is a [ValueError]. *)
Definition logical_and (a b : list bool) : result (list bool) :=
  if (length a =? length b)%nat then Ok (zip_with andb a b)
  else match a, b with
       | _, [y] => Ok (map (fun x => x && y) a)
       | [x], _ => Ok (map (fun y => x && y) b)
       | _, _ => Raise ValueError
       end.

(** The values of an array when every one of them is finite. *)
Fixpoint all_finite (a : list float) : option (list Q) :=
  match a with
  | [] => Some []
  | Fin q :: a' => cons q <$> all_finite a'
  | _ :: _ => None
  end.

Definition qmin (a b : Q) : Q := if Qle_bool a b then a else b.
Definition qmax (a b : Q) : Q := if Qle_bool a b then b else a.

(** Python's builtin [min] and [max] of a sequence: [ValueError] when
    it is empty. *)
Definition py_min (l : list Q) : result Q :=
  match l with
  | [] => Raise ValueError
  | x :: l' => Ok (foldl qmin x l')
  end.

Definition py_max (l : list Q) : result Q :=
  match l with
  | [] => Raise ValueError
  | x :: l' => Ok (foldl qmax x l')
  end.

(** The range of a histogram: [(0, 1)] for no data, otherwise minimum
    and maximum, widened by a half on each side when they coincide. *)
Definition outer_edges (v : list Q) : Q * Q :=
  match v with
  | [] => (0, 1)%Q
  | x :: v' =>
      let first_edge := foldl qmin x v' in
      let last_edge := foldl qmax x v' in
      if Qeq_bool first_edge last_edge
      then (first_edge - (1 # 2), last_edge + (1 # 2))%Q
      else (first_edge, last_edge)
  end.

(** [numpy.linspace (start, stop, n + 1)]: [n + 1] edges, [n] equal steps. *)
Definition linspace (start stop : Q) (n : nat) : list Q :=
  map (fun k => (start + of_nat k * ((stop - start) / of_nat n))%Q) (seq 0 (S n)).

(** The bin of a value: bins are half-open, the last one also holds
    the right edge. *)
Definition bin_index (first_edge last_edge : Q) (n : nat) (x : Q) : nat :=
  let k := Z.to_nat (Qfloor ((x - first_edge) * (of_nat n / (last_edge - first_edge)))) in
  if (k =? n)%nat then (n - 1)%nat else k.

(** [numpy.bincount (indices, minlength=n)] *)
Definition bincount (indices : list nat) (n : nat) : list nat :=
  map (fun k => length (List.filter (Nat.eqb k) indices)) (seq 0 n).

(** [numpy.histogram (a, bins=n)]: counts and edges.  It raises
    [ValueError] when [n] is not positive and when the range of the
    data is not finite (a NaN or an infinity among the values).  The
    edges and the bin of a value are the exact rationals: numpy computes
    both in doubles, so that a value next to an edge can fall in the
    neighbouring bin, and a range wider than the largest double
    overflows and makes it raise.  Neither is modelled. *)
Definition histogram (a : list float) (bins : nat) : result (list nat * list Q) :=
  if (bins =? 0)%nat then Raise ValueError
  else match all_finite a with
       | None => Raise ValueError
       | Some v =>
           let '(first_edge, last_edge) := outer_edges v in
           Ok (bincount (map (bin_index first_edge last_edge bins) v) bins,
               linspace first_edge last_edge bins)
       end.

(** [numpy.sum] of an integer array *)
Definition sum (hist : list nat) : nat := foldr Nat.add 0%nat hist.

Fixpoint cumsum_from (acc : float) (l : list float) : list float :=
  match l with
  | [] => []
  | x :: l' => let s := fadd acc x in s :: cumsum_from s l'
  end.

(** [numpy.cumsum] *)
Definition cumsum (l : list float) : list float :=
  match l with
  | [] => []
  | x :: l' => x :: cumsum_from x l'
  end.

(** Round half to even. *)
Definition rint (x : Q) : Z :=
  let f := Qfloor x in
  match (x - inject_Z f ?= 1 # 2)%Q with
  | Lt => f
  | Gt => f + 1
  | Eq => if Z.even f then f else f + 1
  end.

(** [numpy.round (x, decimals)] *)
Definition round (x : Q) (decimals : nat) : Q :=
  let scale := inject_Z (10 ^ Z.of_nat decimals) in
  (inject_Z (rint (x * scale)) / scale)%Q.

End Numpy.

Module Scipy.

(** Stable sort of the knots by abscissa, NaN last
    ([numpy.argsort (x, kind="mergesort")]). *)
Definition key_le (a b : float) : bool :=
  match a, b with
  | _, NaN => true
  | NaN, _ => false
  | _, _ => fle a b
  end.

Fixpoint insert_knot (p : float * Q) (l : list (float * Q)) : list (float * Q) :=
  match l with
  | [] => [p]
  | q :: l' => if key_le p.1 q.1 then p :: l else q :: insert_knot p l'
  end.

Definition sort_knots (l : list (float * Q)) : list (float * Q) :=
  foldr insert_knot [] l.

(** The straight line through two knots, evaluated at [x]. *)
Definition lerp (x0 : float) (y0 : Q) (x1 : float) (y1 : Q) (x : Q) : float :=
  let slope := fdiv (Fin (y1 - y0)) (fsub x1 x0) in
  fadd (fmul slope (fsub (Fin x) x0)) (Fin y0).

(** Walk to the last knot whose abscissa is at most [x] and
    interpolate towards the next one; at the last knot return its
    ordinate. *)
Fixpoint walk (knots : list (float * Q)) (x : Q) : float :=
  match knots with
  | [] => NaN
  | (x0, y0) :: rest =>
      match rest with
      | [] => Fin y0
      | (x1, y1) :: _ =>
          if fle x1 (Fin x) then walk rest x else lerp x0 y0 x1 y1 x
      end
  end.

(** [numpy.interp (x, xp, fp)] for increasing [xp]: constant to the
    left of the first knot and to the right of the last. *)
Definition np_interp (knots : list (float * Q)) (x : Q) : float :=
  match knots with
  | [] => NaN
  | (x0, y0) :: _ => if flt (Fin x) x0 then Fin y0 else walk knots x
  end.

(** [interp1d (x, y, bounds_error=False)], linear: the knots are
    sorted, the interpolant is [numpy.interp], and a point outside
    [[x[0], x[-1]]] is filled with NaN.  Fewer than two knots, or
    arrays of different lengths, raise [ValueError]. *)
Definition interp1d (x : list float) (y : list Q) : result (Q -> float) :=
  if negb (length x =? length y)%nat then Raise ValueError
  else if (length x <? 2)%nat then Raise ValueError
  else
    let knots := sort_knots (zip x y) in
    Ok (fun x_new =>
          match head knots, last knots with
          | Some (x_first, _), Some (x_last, _) =>
              if flt (Fin x_new) x_first || fgt (Fin x_new) x_last then NaN
              else np_interp knots x_new
          | _, _ => NaN
          end).

End Scipy.

(** ** [build_histogram] *)

(** [bincenter = edges[:-1] + (edges[1:] - edges[:-1])/2] *)
Definition bincenters (edges : list Q) : list Q :=
  zip_with (fun lo hi => (lo + (hi - lo) / 2)%Q) (removelast edges) (tail edges).

(** [cdf = numpy.cumsum (hist/numpy.sum(hist))], the quotients and the
    running sums being exact: in doubles the last value is 1 up to
    rounding only. *)
Definition cdf_of (hist : list nat) : list float :=
  Numpy.cumsum (map (fun h => fdiv (Fin (of_nat h)) (Fin (of_nat (Numpy.sum hist)))) hist).

(** The window values that enter the histogram: finite, and not a
    previously identified spike. *)
Definition included (subdata : list Row) (previous_spikes : list bool) : result (list float) :=
  let raw_values := map raw subdata in
  let isfinite0 := map isfinite raw_values in
  isfinite1 ← (if (0 <? length previous_spikes)%nat
               then Numpy.logical_and isfinite0 (map negb previous_spikes)
               else Ok isfinite0);
  Numpy.bool_index raw_values isfinite1.

(** The two bounds before rounding and buffer: the interpolated inverse
    CDF at the two limits, a value that is not finite replaced by the
    minimum (lower) or the maximum (upper) bin center. *)
Definition estimate (cdf : list float) (bincenter : list Q) (limits : Q * Q) : result (Q * Q) :=
  icdf ← Scipy.interp1d cdf bincenter;
  lower ← match icdf limits.1 with
          | Fin q => Ok q
          | _ => Numpy.py_min bincenter
          end;
  upper ← match icdf limits.2 with
          | Fin q => Ok q
          | _ => Numpy.py_max bincenter
          end;
  Ok (lower, upper).

(** [build_histogram (subdata, previous_spikes, point, plot=False)]: the
    confidence interval [[lower, upper]].  The plots are left out. *)
Definition build_histogram (cfg : Config) (subdata : list Row) (previous_spikes : list bool)
  : result (Q * Q) :=
  values ← included subdata previous_spikes;
  '(hist, edges) ← Numpy.histogram values (nbins cfg);
  let bincenter := bincenters edges in
  let cdf := cdf_of hist in
  '(lower, upper) ← estimate cdf bincenter (cdf_limits cfg);
  Ok ((Numpy.round lower 3 - buffer cfg)%Q, (Numpy.round upper 3 + buffer cfg)%Q).

(** ** The scan loop *)

(** [l[i] = v] on a Python list. *)
Definition list_assign {A : Type} (l : list A) (i : nat) (v : A) : result (list A) :=
  if (i <? length l)%nat then Ok (<[i := v]> l) else Raise IndexError.

Definition begin_index (cfg : Config) (index : Z) : Z := Z.max 0 (index - interval cfg).
Definition end_index (index : Z) : Z := Z.max 0 (index - 1).

(** [subdata = data.iloc[begin_index:end_index, :]] *)
Definition subdata_at (cfg : Config) (data : list Row) (index : Z) : list Row :=
  iloc data (begin_index cfg index) (end_index index).

(** [nValid = len (subdata.raw[numpy.isfinite (subdata.raw)])] *)
Definition nValid (subdata : list Row) : Z :=
  Z.of_nat (length (List.filter isfinite (map raw subdata))).

(** [previous_spikes = numpy.array (are_spikes[begin_index:end_index])] *)
Definition previous_spikes_at (cfg : Config) (are_spikes : list bool) (index : Z) : list bool :=
  iloc are_spikes (begin_index cfg index) (end_index index).

(** [nspikes = len (previous_spikes[previous_spikes])].  An array made
    of a non-empty list of booleans is a boolean array and indexes
    itself as a mask; the array made of the empty list is an array of
    floats, which numpy refuses as an index ([IndexError]). *)
Definition nspikes_of (previous_spikes : list bool) : result nat :=
  match previous_spikes with
  | [] => Raise IndexError
  | _ :: _ => Ok (length (List.filter id previous_spikes))
  end.

(** The decision on the current point given the confidence interval. *)
Definition classify (point : Row) (limit_range : Q * Q) : bool :=
  if isnull (raw point) then false
  else flt (raw point) (Fin limit_range.1) || fgt (raw point) (Fin limit_range.2).

(** One pass through the body of the loop
    [for index, point in data.iterrows()]; the reporting branch, which
    only plots and prints, is left out. *)
Definition scan_body (cfg : Config) (data : list Row) (are_spikes : list bool)
    (index : nat) (point : Row) : result (list bool) :=
  if Z.of_nat index <? min_entries cfg then Ok are_spikes
  else
    let subdata := subdata_at cfg data (Z.of_nat index) in
    if nValid subdata <? min_entries cfg - 1 then Ok are_spikes
    else
      let previous_spikes := previous_spikes_at cfg are_spikes (Z.of_nat index) in
      nspikes ← nspikes_of previous_spikes;
      limit_range ← build_histogram cfg subdata previous_spikes;
      list_assign are_spikes index (classify point limit_range).

(** The rows still to be visited, starting at [index]. *)
Fixpoint scan_from (cfg : Config) (data : list Row) (index : nat) (rows : list Row)
    (are_spikes : list bool) : result (list bool) :=
  match rows with
  | [] => Ok are_spikes
  | point :: rows' =>
      are_spikes' ← scan_body cfg data are_spikes index point;
      scan_from cfg data (S index) rows' are_spikes'
  end.

(** [are_spikes = [False] * len (data)] followed by the loop. *)
Definition scan (cfg : Config) (data : list Row) : result (list bool) :=
  scan_from cfg data 0 data (replicate (length data) false).

(** An index is evaluated when it is past the warm-up and its window
    holds enough finite values: the two [continue] guards of the loop. *)
Definition evaluated (cfg : Config) (data : list Row) (index : nat) : bool :=
  (min_entries cfg <=? Z.of_nat index)
  && (min_entries cfg - 1 <=? nValid (subdata_at cfg data (Z.of_nat index))).

Definition n_evaluated (cfg : Config) (data : list Row) : nat :=
  length (List.filter (evaluated cfg data) (seq 0 (length data))).

(** ** Summary of model performance *)

(** [len (x[x])] for a boolean column *)
Definition count_true (x : list bool) : nat := length (List.filter id x).

Record Confusion : Type := {
  n_predno_trueno : nat;
  n_predyes_trueno : nat;
  n_predno_trueyes : nat;
  n_predyes_trueyes : nat
}.

(** [data['pred_is_spike'] = numpy.array (are_spikes)]: a new column must
    be as long as the frame. *)
Definition assign_column (data : list Row) (labels : list bool) : result (list (Row * bool)) :=
  if (length labels =? length data)%nat then Ok (zip data labels) else Raise ValueError.

(** The four masks over the columns [true_is_spike] and [pred_is_spike]
    of the frame, and the number of rows in each. *)
Definition confusion_matrix (cfg : Config) (frame : list (Row * bool)) : Confusion :=
  let true_col := map (fun r => true_is_spike cfg r.1) frame in
  let pred_col := map snd frame in
  let istrue_notpred := zip_with andb true_col (map negb pred_col) in
  let nottrue_ispred := zip_with andb (map negb true_col) pred_col in
  let nottrue_notpred := zip_with andb (map negb true_col) (map negb pred_col) in
  let istrue_ispred := zip_with andb true_col pred_col in
  {| n_predno_trueno := count_true nottrue_notpred;
     n_predyes_trueno := count_true nottrue_ispred;
     n_predno_trueyes := count_true istrue_notpred;
     n_predyes_trueyes := count_true istrue_ispred |}.

(** [a / b] on Python integers *)
Definition py_truediv (a b : nat) : result Q :=
  if (b =? 0)%nat then Raise ZeroDivisionError else Ok (of_nat a / of_nat b)%Q.

Record Metrics : Type := {
  accuracy : Q;
  precision : Q;
  sensitivity : Q;
  error_rate : Q;
  true_negative_rate : Q;
  false_positive_rate : Q;
  prevalence : Q
}.

Definition total_of (c : Confusion) : nat :=
  (n_predno_trueno c + n_predno_trueyes c + n_predyes_trueno c + n_predyes_trueyes c)%nat.

Definition metrics (c : Confusion) : result Metrics :=
  let total := total_of c in
  let total_trueyes := (n_predno_trueyes c + n_predyes_trueyes c)%nat in
  let total_trueno := (n_predno_trueno c + n_predyes_trueno c)%nat in
  let total_predyes := (n_predyes_trueyes c + n_predyes_trueno c)%nat in
  accuracy ← py_truediv (n_predno_trueno c + n_predyes_trueyes c) total;
  precision ← py_truediv (n_predyes_trueyes c) total_predyes;
  sensitivity ← py_truediv (n_predyes_trueyes c) total_trueyes;
  error_rate ← py_truediv (n_predyes_trueno c + n_predno_trueyes c) total;
  true_negative_rate ← py_truediv (n_predno_trueno c) total_trueno;
  false_positive_rate ← py_truediv (n_predyes_trueno c) total_trueno;
  prevalence ← py_truediv (n_predno_trueyes c + n_predyes_trueyes c) total;
  Ok {| accuracy := accuracy; precision := precision; sensitivity := sensitivity;
        error_rate := error_rate; true_negative_rate := true_negative_rate;
        false_positive_rate := false_positive_rate; prevalence := prevalence |}.

(** The main block after the data frame is tidied: scan, add the
    prediction column, confusion matrix, metrics. *)
Definition main (cfg : Config) (data : list Row) : result (list bool * Confusion * Metrics) :=
  labels ← scan cfg data;
  frame ← assign_column data labels;
  let c := confusion_matrix cfg frame in
  m ← metrics c;
  Ok (labels, c, m).

(** ** The quantile of the specification

    The specification describes the inverse CDF in other words than the
    source: the smallest bin center whose cumulative probability is at
    least the target, and the minimum (lower) or maximum (upper) bin
    center when there is none.  [spec_quantile] follows these words; it
    is compared with [estimate] below. *)

Definition satisfying (cdf : list float) (bincenter : list Q) (p : Q) : list Q :=
  map snd (List.filter (fun fc : float * Q => fle (Fin p) fc.1) (zip cdf bincenter)).

Definition spec_quantile (cdf : list float) (bincenter : list Q) (p : Q) : option Q :=
  match satisfying cdf bincenter p with
  | [] => None
  | c :: cs => Some (foldl Numpy.qmin c cs)
  end.

Definition spec_estimate (cdf : list float) (bincenter : list Q) (limits : Q * Q)
  : result (Q * Q) :=
  lower ← match spec_quantile cdf bincenter limits.1 with
          | Some q => Ok q
          | None => Numpy.py_min bincenter
          end;
  upper ← match spec_quantile cdf bincenter limits.2 with
          | Some q => Ok q
          | None => Numpy.py_max bincenter
          end;
  Ok (lower, upper).

(** [build_histogram] with the quantile of the specification in the
    place of the interpolated inverse CDF. *)
Definition spec_build_histogram (cfg : Config) (subdata : list Row)
    (previous_spikes : list bool) : result (Q * Q) :=
  values ← included subdata previous_spikes;
  '(hist, edges) ← Numpy.histogram values (nbins cfg);
  '(lower, upper) ← spec_estimate (cdf_of hist) (bincenters edges) (cdf_limits cfg);
  Ok ((Numpy.round lower 3 - buffer cfg)%Q, (Numpy.round upper 3 + buffer cfg)%Q).

(** ** Linear interpolation, declaratively

    [interpolated cdf bincenter p r]: [r] is the value at [p] of the
    piecewise linear curve through the points [(cdf[j], bincenter[j])],
    and NaN when [p] lies outside [[cdf[0], cdf[-1]]]. *)
Inductive interpolated (cdf bincenter : list Q) (p : Q) : float -> Prop :=
| interpolated_between j Fj Fj1 cj cj1 q :
    cdf !! j = Some Fj -> cdf !! S j = Some Fj1 ->
    bincenter !! j = Some cj -> bincenter !! S j = Some cj1 ->
    (Fj <= p)%Q -> (p < Fj1)%Q ->
    (q == cj + (p - Fj) * ((cj1 - cj) / (Fj1 - Fj)))%Q ->
    interpolated cdf bincenter p (Fin q)
| interpolated_at_end F_last c_last :
    last cdf = Some F_last -> last bincenter = Some c_last ->
    (p == F_last)%Q ->
    interpolated cdf bincenter p (Fin c_last)
| interpolated_outside F_first F_last :
    head cdf = Some F_first -> last cdf = Some F_last ->
    (p < F_first)%Q \/ (F_last < p)%Q ->
    interpolated cdf bincenter p NaN.

(** ** The cells of the confusion matrix

    A row belongs to the cell of its ground truth and its prediction;
    [cell] counts the rows of a frame in one cell. *)
Definition in_cell (cfg : Config) (truth pred : bool) (rp : Row * bool) : bool :=
  eqb (true_is_spike cfg rp.1) truth && eqb rp.2 pred.

Definition cell (cfg : Config) (truth pred : bool) (frame : list (Row * bool)) : nat :=
  length (List.filter (in_cell cfg truth pred) frame).

(** ** Sample sequences used in the examples below *)

(** A row whose raw and accepted levels agree. *)
Definition reading (t : nat) (level : Q) : Row :=
  {| Time := Z.of_nat t; raw := Fin level; accepted := Fin level |}.

(** [n] rows, one every tick: level 0 for the first hundred rows, level
    100 from row 100 on. *)
Definition flat_then_jump (n : nat) : list Row :=
  map (fun t => reading t (if (t <? 100)%nat then 0 else 100)%Q) (seq 0 n).

(** ** Station groups ([src/data_cleaning/data_cleaner.py])

    [_group_stations_by_neighbor] walks the rows of the station sheet,
    each a station id and the id of its neighbor station, and collects
    the ids into groups.  Ids are integers. *)

Module DataCleaner.

(** [sorted (l)] *)
Definition sorted (l : list Z) : list Z := merge_sort Z.le l.

(** [list (numpy.unique (l))]: the distinct values in ascending order. *)
Definition unique (l : list Z) : list Z := merge_sort Z.le (remove_dups l).

(** [numpy.in1d (a, b).any ()]: some element of [a] occurs in [b]. *)
Definition in1d_any (a b : list Z) : bool :=
  existsb (fun x => bool_decide (x ∈ b)) a.

(** The inner loop over the groups found so far: the first group that
    equals [subarray] is kept as it is, the first group that shares an id
    with it is replaced by the union of the two; [None] when the loop
    ends without a [break] ([found] stays [False]). *)
Fixpoint place (subarray : list Z) (station_list : list (list Z))
  : option (list (list Z)) :=
  match station_list with
  | [] => None
  | prevarray :: rest =>
      if bool_decide (prevarray = subarray) then Some station_list
      else if in1d_any subarray prevarray
           then Some (unique (prevarray ++ subarray) :: rest)
           else cons prevarray <$> place subarray rest
  end.

(** The body of the outer loop for one row. *)
Definition group_step (station_list : list (list Z)) (row : Z * Z) : list (list Z) :=
  let subarray := sorted [row.1; row.2] in
  match place subarray station_list with
  | Some station_list' => station_list'
  | None => station_list ++ [subarray]
  end.

Definition _group_stations_by_neighbor (station_df : list (Z * Z)) : list (list Z) :=
  foldl group_step [] station_df.

(** The property [station_ids]: the ids of all groups in one array. *)
Definition station_ids (station_groups : list (list Z)) : list Z :=
  mjoin station_groups.

End DataCleaner.

(** * Properties *)

(** ** The exception monad *)

Lemma bind_Ok {A B : Type} (c : result A) (k : A -> result B) (b : B) :
  c ≫= k = Ok b <-> exists a, c = Ok a /\ k a = Ok b.
Proof.
  destruct c as [a|e]; simpl; split.
  - intros H; exists a; auto.
  - intros (a' & Ha & Hk); congruence.
  - discriminate.
  - intros (a' & Ha & _); discriminate.
Qed.

Ltac inv_bind H :=
  let a := fresh "a" in
  let Ha := fresh "Ha" in
  apply bind_Ok in H; destruct H as (a & Ha & H).

(** ** Slices *)

Section Slices.
Context {A : Type}.
Implicit Types l : list A.

Lemma iloc_lookup l (b e : Z) (k : nat) :
  iloc l b e !! k
  = if decide (k < Z.to_nat e - Z.to_nat b)%nat then l !! (Z.to_nat b + k)%nat else None.
Proof.
  unfold iloc. case_decide.
  - rewrite lookup_take_lt by done. apply lookup_drop.
  - apply lookup_take_ge. lia.
Qed.

Lemma iloc_agree l l' (b e : Z) :
  (forall j, (j < Z.to_nat e)%nat -> l !! j = l' !! j) ->
  iloc l b e = iloc l' b e.
Proof.
  intros H. apply list_eq. intros k. rewrite !iloc_lookup.
  case_decide; [apply H; lia | done].
Qed.

Lemma iloc_length l (b e : Z) :
  length (iloc l b e) = Nat.min (Z.to_nat e - Z.to_nat b) (length l - Z.to_nat b).
Proof. unfold iloc. by rewrite length_take, length_drop. Qed.
End Slices.

(** ** One pass through the loop body *)

Lemma list_assign_Ok {A : Type} (l l' : list A) (i : nat) (v : A) :
  list_assign l i v = Ok l' <-> (i < length l)%nat /\ l' = <[i := v]> l.
Proof.
  unfold list_assign. destruct (Nat.ltb_spec i (length l)); split.
  - intros [= <-]. done.
  - intros [_ ->]. done.
  - discriminate.
  - intros [? _]. lia.
Qed.

Lemma evaluated_true cfg data index :
  evaluated cfg data index = true <->
  min_entries cfg <= Z.of_nat index /\
  min_entries cfg - 1 <= nValid (subdata_at cfg data (Z.of_nat index)).
Proof. unfold evaluated. rewrite andb_true_iff, !Z.leb_le. done. Qed.

Lemma nspikes_of_Ok previous_spikes :
  (exists n, nspikes_of previous_spikes = Ok n) <-> previous_spikes <> [].
Proof.
  destruct previous_spikes; simpl; split; try done.
  - by intros [n ?].
  - by eexists.
Qed.

(** The body either leaves the labels alone (an index that is not
    evaluated) or writes the classification of the point at its index;
    the slice of earlier labels is not empty then. *)
Lemma scan_body_Ok cfg data labels index point labels' :
  scan_body cfg data labels index point = Ok labels' <->
  (evaluated cfg data index = false /\ labels' = labels) \/
  (evaluated cfg data index = true /\ (index < length labels)%nat /\
   previous_spikes_at cfg labels (Z.of_nat index) <> [] /\
   exists limit_range,
     build_histogram cfg (subdata_at cfg data (Z.of_nat index))
       (previous_spikes_at cfg labels (Z.of_nat index)) = Ok limit_range /\
     labels' = <[index := classify point limit_range]> labels).
Proof.
  unfold scan_body, evaluated.
  destruct (Z.ltb_spec (Z.of_nat index) (min_entries cfg)) as [Hw|Hw].
  { replace (min_entries cfg <=? Z.of_nat index) with false by (symmetry; apply Z.leb_gt; lia).
    simpl. split.
    - intros [= <-]. by left.
    - intros [[_ ->]|[? _]]; [done | discriminate]. }
  replace (min_entries cfg <=? Z.of_nat index) with true by (symmetry; apply Z.leb_le; lia).
  simpl.
  destruct (Z.ltb_spec (nValid (subdata_at cfg data (Z.of_nat index))) (min_entries cfg - 1)) as [Hv|Hv].
  { replace (min_entries cfg - 1 <=? _) with false by (symmetry; apply Z.leb_gt; lia).
    split.
    - intros [= <-]. by left.
    - intros [[_ ->]|[? _]]; [done | discriminate]. }
  replace (min_entries cfg - 1 <=? _) with true by (symmetry; apply Z.leb_le; lia).
  split.
  - intros H. inv_bind H. inv_bind H. apply list_assign_Ok in H as [Hlt ->].
    right. split; [done|]. split; [done|].
    split; [apply nspikes_of_Ok; by eexists|]. by eexists.
  - intros [[? _]|(_ & Hlt & Hne & lr & Hb & ->)]; [discriminate|].
    apply nspikes_of_Ok in Hne as [n Hn].
    apply bind_Ok. exists n. split; [done|].
    apply bind_Ok. exists lr. split; [done|]. by apply list_assign_Ok.
Qed.

Lemma scan_body_length cfg data labels index point labels' :
  scan_body cfg data labels index point = Ok labels' -> length labels' = length labels.
Proof.
  intros H. apply scan_body_Ok in H as [[_ ->]|(_ & _ & _ & lr & _ & ->)]; [done|].
  apply length_insert.
Qed.

Lemma scan_body_other cfg data labels index point labels' j :
  scan_body cfg data labels index point = Ok labels' -> j <> index -> labels' !! j = labels !! j.
Proof.
  intros H Hj. apply scan_body_Ok in H as [[_ ->]|(_ & _ & _ & lr & _ & ->)]; [done|].
  by apply list_lookup_insert_ne.
Qed.

Lemma scan_body_warm_up cfg data labels index point labels' :
  scan_body cfg data labels index point = Ok labels' ->
  Z.of_nat index < min_entries cfg -> labels' = labels.
Proof.
  intros H Hw. apply scan_body_Ok in H as [[_ ->]|(He & _)]; [done|].
  apply evaluated_true in He. lia.
Qed.

(** ** The whole loop *)

(** Rows are visited in increasing order: what the loop does from
    [index] on leaves the length and every earlier label unchanged. *)
Lemma scan_from_frame cfg data rows : forall index labels labels',
  scan_from cfg data index rows labels = Ok labels' ->
  length labels' = length labels /\
  forall j, (j < index)%nat -> labels' !! j = labels !! j.
Proof.
  induction rows as [|point rows IH]; simpl; intros index labels labels' H.
  - by injection H as <-.
  - inv_bind H. apply IH in H as [Hlen Hpre]. split.
    + rewrite Hlen. eapply scan_body_length; eauto.
    + intros j Hj. rewrite Hpre by lia. eapply scan_body_other; eauto. lia.
Qed.

(** The labels of the warm-up indices are never written. *)
Lemma scan_from_warm_up cfg data rows : forall index labels labels' j,
  scan_from cfg data index rows labels = Ok labels' ->
  Z.of_nat j < min_entries cfg -> labels' !! j = labels !! j.
Proof.
  induction rows as [|point rows IH]; simpl; intros index labels labels' j H Hj.
  - by injection H as <-.
  - inv_bind H. rewrite (IH _ _ _ _ H Hj).
    destruct (decide (j = index)) as [->|Hne].
    + by rewrite (scan_body_warm_up _ _ _ _ _ _ Ha Hj).
    + eapply scan_body_other; eauto.
Qed.

(** The pass that visits a given row, seen from the final labels. *)
Lemma scan_from_visit cfg data rows : forall index labels labels' k point,
  scan_from cfg data index rows labels = Ok labels' ->
  rows !! k = Some point ->
  exists before after,
    scan_body cfg data before (index + k) point = Ok after /\
    length before = length labels /\
    (forall j, (j < index + k)%nat -> labels' !! j = before !! j) /\
    labels' !! (index + k)%nat = after !! (index + k)%nat.
Proof.
  induction rows as [|p rows IH]; simpl; intros index labels labels' k point H Hk; [done|].
  inv_bind H. destruct k as [|k]; simpl in Hk.
  - injection Hk as ->. exists labels, a. rewrite Nat.add_0_r.
    apply scan_from_frame in H as [_ Hpre].
    repeat split; [done| |apply Hpre; lia].
    intros j Hj. rewrite Hpre by lia. eapply scan_body_other; eauto. lia.
  - destruct (IH _ _ _ _ _ H Hk) as (before & after & Hb & Hlen & Hpre & Hat).
    exists before, after. replace (index + S k)%nat with (S index + k)%nat by lia.
    repeat split; try done. rewrite Hlen. eapply scan_body_length; eauto.
Qed.

(** ** Warm-up *)

(** C8. An index below [min_entries] is not evaluated, and its entry in
    the final label array is [False]. *)
Theorem warm_up_label_false cfg data labels (i : nat) :
  scan cfg data = Ok labels ->
  (i < length data)%nat ->
  Z.of_nat i < min_entries cfg ->
  evaluated cfg data i = false /\ labels !! i = Some false.
Proof.
  intros Hscan Hi Hw. split.
  - destruct (evaluated cfg data i) eqn:He; [|done].
    apply evaluated_true in He. lia.
  - unfold scan in Hscan. rewrite (scan_from_warm_up _ _ _ _ _ _ _ Hscan Hw).
    by apply lookup_replicate_2.
Qed.

Lemma warm_up_label_false_witness :
  evaluated default_config (flat_then_jump 101) 7 = false /\
  (replicate 100 false ++ [true]) !! 7%nat = Some false.
Proof.
  apply (warm_up_label_false default_config (flat_then_jump 101)
           (replicate 100 false ++ [true]) 7); [by vm_compute | simpl; lia | simpl; lia].
Defined.

(** ** Classification *)

(** C4. At an evaluated index the final label is the decision of the
    classifier against the interval computed from the window and the
    labels before it: [False] for a NaN raw value, and otherwise [True]
    exactly when the raw value is below [lower] or above [upper]. *)
Theorem classification_rule cfg data labels (i : nat) point :
  scan cfg data = Ok labels ->
  data !! i = Some point ->
  evaluated cfg data i = true ->
  exists lower upper label,
    build_histogram cfg (subdata_at cfg data (Z.of_nat i))
      (previous_spikes_at cfg labels (Z.of_nat i)) = Ok (lower, upper) /\
    labels !! i = Some label /\
    (raw point = NaN -> label = false) /\
    (raw point <> NaN ->
     (label = true <->
      flt (raw point) (Fin lower) = true \/ fgt (raw point) (Fin upper) = true)).
Proof.
  intros Hscan Hpt He. unfold scan in Hscan.
  destruct (scan_from_visit _ _ _ _ _ _ _ _ Hscan Hpt)
    as (before & after & Hbody & Hlen & Hpre & Hat).
  simpl in *. apply scan_body_Ok in Hbody as [[He' _]|(_ & Hlt & _ & [lower upper] & Hb & ->)];
    [congruence|].
  exists lower, upper, (classify point (lower, upper)).
  split; [|split; [|split]].
  - rewrite <- Hb. f_equal. apply iloc_agree. intros j Hj. apply Hpre.
    unfold end_index in Hj. lia.
  - rewrite Hat. by apply list_lookup_insert_eq.
  - intros Hnan. unfold classify. by rewrite Hnan.
  - intros Hnan. unfold classify.
    destruct (raw point); try done; unfold isnull; apply orb_true_iff.
Qed.

Lemma classification_rule_witness :
  exists lower upper label,
    build_histogram default_config (subdata_at default_config (flat_then_jump 101) 100)
      (previous_spikes_at default_config (replicate 100 false ++ [true]) 100)
    = Ok (lower, upper) /\
    (replicate 100 false ++ [true]) !! 100%nat = Some label /\
    (Fin 100 = NaN -> label = false) /\
    (Fin 100 <> NaN ->
     (label = true <->
      flt (Fin 100) (Fin lower) = true \/ fgt (Fin 100) (Fin upper) = true)).
Proof.
  apply (classification_rule default_config (flat_then_jump 101)
           (replicate 100 false ++ [true]) 100 (reading 100 100));
    by vm_compute.
Defined.

(** ** The window *)

(** What the slice of the loop holds: the rows from [begin_index] up to
    and excluding [end_index = index - 1]. *)
Lemma subdata_at_lookup cfg data (index k : nat) :
  subdata_at cfg data (Z.of_nat index) !! k
  = if decide (Z.to_nat (begin_index cfg (Z.of_nat index)) + k < index - 1)%nat
    then data !! (Z.to_nat (begin_index cfg (Z.of_nat index)) + k)%nat
    else None.
Proof.
  unfold subdata_at. rewrite iloc_lookup. unfold end_index.
  repeat case_decide; try done; lia.
Qed.

(** C2. With the constants of the module, the window of index 100 in a
    sequence of 101 rows holds the rows 0 to 98: the row at index 99,
    the last one before the current point, is not in it. *)
Theorem window_stops_before_previous_row :
  map Time (subdata_at default_config (flat_then_jump 101) 100)
  = map Z.of_nat (seq 0 99) /\
  (flat_then_jump 101) !! 99%nat = Some (reading 99 0) /\
  reading 99 0 ∉ subdata_at default_config (flat_then_jump 101) 100.
Proof.
  split; [by vm_compute|]. split; [by vm_compute|].
  intros Hin. apply (list_elem_of_fmap_2 Time) in Hin.
  assert (H : map Time (subdata_at default_config (flat_then_jump 101) 100)
              = map Z.of_nat (seq 0 99)) by (by vm_compute).
  change (fmap Time) with (map Time) in Hin.
  rewrite H in Hin. apply list_elem_of_In, in_map_iff in Hin as (x & Hx & Hin').
  apply in_seq in Hin'. simpl in Hx. lia.
Qed.

(** ** The cells of the confusion matrix *)

Section Cells.
Context {A : Type}.

Lemma zip_with_andb_map (f g : A -> bool) (l : list A) :
  zip_with andb (map f l) (map g l) = map (fun x => f x && g x) l.
Proof. induction l as [|x l IH]; simpl; [done | by rewrite IH]. Qed.

Lemma count_true_map (h : A -> bool) (l : list A) :
  count_true (map h l) = length (List.filter h l).
Proof.
  unfold count_true. induction l as [|x l IH]; [done|].
  cbn [map List.filter]. change (id (h x)) with (h x).
  destruct (h x); simpl; by rewrite IH.
Qed.
End Cells.

Lemma filter_ext_length {A : Type} (f g : A -> bool) (l : list A) :
  (forall x, f x = g x) -> length (List.filter f l) = length (List.filter g l).
Proof. intros H. by rewrite (List.filter_ext f g H). Qed.

Lemma confusion_matrix_cells cfg frame :
  confusion_matrix cfg frame =
  {| n_predno_trueno := cell cfg false false frame;
     n_predyes_trueno := cell cfg false true frame;
     n_predno_trueyes := cell cfg true false frame;
     n_predyes_trueyes := cell cfg true true frame |}.
Proof.
  unfold confusion_matrix, cell.
  rewrite !map_map, !zip_with_andb_map, !count_true_map.
  f_equal; apply filter_ext_length; intros [r p]; unfold in_cell; simpl;
    by destruct (true_is_spike cfg r), p.
Qed.

Lemma cell_app cfg truth pred l1 l2 :
  cell cfg truth pred (l1 ++ l2) = (cell cfg truth pred l1 + cell cfg truth pred l2)%nat.
Proof. unfold cell. by rewrite List.filter_app, length_app. Qed.

Lemma cell_cons cfg truth pred rp l :
  cell cfg truth pred (rp :: l)
  = ((if in_cell cfg truth pred rp then 1 else 0) + cell cfg truth pred l)%nat.
Proof. unfold cell. simpl. by destruct (in_cell cfg truth pred rp). Qed.

Lemma cells_partition cfg frame :
  (cell cfg false false frame + cell cfg true false frame
   + cell cfg false true frame + cell cfg true true frame)%nat = length frame.
Proof.
  induction frame as [|[r p] frame IH]; [done|].
  rewrite !cell_cons. simpl length. rewrite <- IH. unfold in_cell. simpl.
  destruct (true_is_spike cfg r), p; simpl; lia.
Qed.

Lemma assign_column_Ok data labels frame :
  assign_column data labels = Ok frame <->
  length labels = length data /\ frame = zip data labels.
Proof.
  unfold assign_column. destruct (Nat.eqb_spec (length labels) (length data)); split.
  - by intros [= <-].
  - by intros [_ ->].
  - discriminate.
  - intros [? _]. lia.
Qed.

Lemma scan_length cfg data labels :
  scan cfg data = Ok labels -> length labels = length data.
Proof.
  unfold scan. intros H. apply scan_from_frame in H as [-> _].
  apply length_replicate.
Qed.

(** C6, as the code has it. The four counts of the confusion matrix add
    up to the number of rows of the frame: the rows of the warm-up and
    the skipped rows are counted too, with the prediction [False]. *)
Theorem confusion_counts_sum_to_rows cfg data labels :
  scan cfg data = Ok labels ->
  exists frame,
    assign_column data labels = Ok frame /\
    total_of (confusion_matrix cfg frame) = length data.
Proof.
  intros Hscan. apply scan_length in Hscan as Hlen.
  exists (zip data labels). split; [by apply assign_column_Ok|].
  rewrite confusion_matrix_cells. unfold total_of. simpl.
  rewrite cells_partition, length_zip_with. lia.
Qed.

Lemma confusion_counts_sum_to_rows_witness :
  exists frame,
    assign_column (flat_then_jump 1) [false] = Ok frame /\
    total_of (confusion_matrix default_config frame) = length (flat_then_jump 1).
Proof.
  apply (confusion_counts_sum_to_rows default_config (flat_then_jump 1) [false]).
  by vm_compute.
Defined.

(** C6 as stated fails: a sequence of one row has no evaluated point,
    and the counts add up to one. *)
Lemma confusion_counts_not_evaluated_points :
  exists labels frame,
    scan default_config (flat_then_jump 1) = Ok labels /\
    assign_column (flat_then_jump 1) labels = Ok frame /\
    total_of (confusion_matrix default_config frame) = 1%nat /\
    n_evaluated default_config (flat_then_jump 1) = 0%nat.
Proof. exists [false], [(reading 0 0, false)]. by vm_compute. Qed.

(** C10. A row whose [delta] is NaN (a missing raw or accepted value) is
    not a true spike, and in the confusion matrix it adds one to the
    true-no cells and nothing to the true-yes cells. *)
Theorem nan_delta_is_ground_truth_negative cfg r pred before after :
  delta r = NaN ->
  true_is_spike cfg r = false /\
  let c := confusion_matrix cfg (before ++ (r, pred) :: after) in
  let c0 := confusion_matrix cfg (before ++ after) in
  n_predno_trueyes c = n_predno_trueyes c0 /\
  n_predyes_trueyes c = n_predyes_trueyes c0 /\
  (n_predno_trueno c + n_predyes_trueno c
   = S (n_predno_trueno c0 + n_predyes_trueno c0))%nat.
Proof.
  intros Hd.
  assert (Ht : true_is_spike cfg r = false) by (unfold true_is_spike; by rewrite Hd).
  split; [done|]. rewrite !confusion_matrix_cells. simpl.
  rewrite !cell_app, !cell_cons. unfold in_cell. simpl. rewrite Ht.
  destruct pred; simpl; lia.
Qed.

Lemma missing_value_delta r :
  raw r = NaN \/ accepted r = NaN -> delta r = NaN.
Proof.
  unfold delta, fsub. intros [->| ->]; [by destruct (accepted r) | done].
Qed.

Lemma nan_delta_is_ground_truth_negative_witness :
  let r := {| Time := 0; raw := NaN; accepted := Fin 1 |} in
  true_is_spike default_config r = false /\
  let c := confusion_matrix default_config ([] ++ (r, false) :: []) in
  let c0 := confusion_matrix default_config ([] ++ []) in
  n_predno_trueyes c = n_predno_trueyes c0 /\
  n_predyes_trueyes c = n_predyes_trueyes c0 /\
  (n_predno_trueno c + n_predyes_trueno c
   = S (n_predno_trueno c0 + n_predyes_trueno c0))%nat.
Proof.
  apply (nan_delta_is_ground_truth_negative default_config
           {| Time := 0; raw := NaN; accepted := Fin 1 |} false [] []).
  reflexivity.
Defined.

(** ** Metrics *)

Lemma py_truediv_Ok a b q :
  py_truediv a b = Ok q <-> b <> 0%nat /\ q = (of_nat a / of_nat b)%Q.
Proof.
  unfold py_truediv. destruct (Nat.eqb_spec b 0); split.
  - discriminate.
  - intros [? _]. lia.
  - by intros [= <-].
  - by intros [_ ->].
Qed.

Lemma py_truediv_zero a : py_truediv a 0 = Raise ZeroDivisionError.
Proof. done. Qed.

(** The metrics are computed exactly when no denominator is zero. *)
Lemma metrics_Ok c :
  (exists m, metrics c = Ok m) <->
  (n_predyes_trueyes c + n_predyes_trueno c <> 0 /\
   n_predno_trueyes c + n_predyes_trueyes c <> 0 /\
   n_predno_trueno c + n_predyes_trueno c <> 0)%nat.
Proof.
  unfold metrics, total_of. split.
  - intros [m H]. repeat inv_bind H.
    repeat match goal with
           | H : py_truediv _ _ = Ok _ |- _ => apply py_truediv_Ok in H as [? _]
           end.
    lia.
  - intros (H1 & H2 & H3). unfold py_truediv.
    repeat match goal with
           | |- context [(?n =? 0)%nat] =>
               destruct (Nat.eqb_spec n 0); [lia|]
           end.
    simpl. eauto.
Qed.

Lemma metrics_raises c :
  (n_predyes_trueyes c + n_predyes_trueno c = 0 \/
   n_predno_trueyes c + n_predyes_trueyes c = 0 \/
   n_predno_trueno c + n_predyes_trueno c = 0)%nat ->
  metrics c = Raise ZeroDivisionError.
Proof.
  intros H. unfold metrics, total_of, py_truediv.
  repeat match goal with
         | |- context [(?n =? 0)%nat] => destruct (Nat.eqb_spec n 0); simpl; [done|]
         end.
  lia.
Qed.

(** ** The main block *)

(** C7, as the code has it. When the scan completes, the prediction
    column is added; the metrics are then computed when no denominator
    is zero, and a [ZeroDivisionError] is raised when one is. *)
Theorem metrics_raise_exactly_on_zero_denominator cfg data labels :
  scan cfg data = Ok labels ->
  exists frame,
    assign_column data labels = Ok frame /\
    let c := confusion_matrix cfg frame in
    ((n_predyes_trueyes c + n_predyes_trueno c <> 0 /\
      n_predno_trueyes c + n_predyes_trueyes c <> 0 /\
      n_predno_trueno c + n_predyes_trueno c <> 0)%nat /\
     exists m, metrics c = Ok m /\ main cfg data = Ok (labels, c, m))
    \/
    ((n_predyes_trueyes c + n_predyes_trueno c = 0 \/
      n_predno_trueyes c + n_predyes_trueyes c = 0 \/
      n_predno_trueno c + n_predyes_trueno c = 0)%nat /\
     main cfg data = Raise ZeroDivisionError).
Proof.
  intros Hscan. exists (zip data labels).
  assert (Hcol : assign_column data labels = Ok (zip data labels)).
  { apply assign_column_Ok. split; [by eapply scan_length|done]. }
  split; [done|]. intros c.
  unfold main. rewrite Hscan. simpl. rewrite Hcol. simpl. fold c.
  destruct (Nat.eq_dec (n_predyes_trueyes c + n_predyes_trueno c)%nat 0%nat) as [H1|H1];
    [right; split; [by left|]; by rewrite metrics_raises by (by left)|].
  destruct (Nat.eq_dec (n_predno_trueyes c + n_predyes_trueyes c)%nat 0%nat) as [H2|H2];
    [right; split; [by right; left|]; by rewrite metrics_raises by (by right; left)|].
  destruct (Nat.eq_dec (n_predno_trueno c + n_predyes_trueno c)%nat 0%nat) as [H3|H3];
    [right; split; [by right; right|]; by rewrite metrics_raises by (by right; right)|].
  left. split; [done|].
  destruct (proj2 (metrics_Ok c) (conj H1 (conj H2 H3))) as [m Hm].
  exists m. by rewrite Hm.
Qed.

Lemma metrics_raise_exactly_on_zero_denominator_witness :
  let data := flat_then_jump 100 ++ [{| Time := 100; raw := Fin 100; accepted := Fin 0 |}] in
  let labels := replicate 100 false ++ [true] in
  exists frame,
    assign_column data labels = Ok frame /\
    let c := confusion_matrix default_config frame in
    ((n_predyes_trueyes c + n_predyes_trueno c <> 0 /\
      n_predno_trueyes c + n_predyes_trueyes c <> 0 /\
      n_predno_trueno c + n_predyes_trueno c <> 0)%nat /\
     exists m, metrics c = Ok m /\ main default_config data = Ok (labels, c, m))
    \/
    ((n_predyes_trueyes c + n_predyes_trueno c = 0 \/
      n_predno_trueyes c + n_predyes_trueyes c = 0 \/
      n_predno_trueno c + n_predyes_trueno c = 0)%nat /\
     main default_config data = Raise ZeroDivisionError).
Proof.
  intros data labels.
  apply (metrics_raise_exactly_on_zero_denominator default_config data labels).
  vm_compute. reflexivity.
Defined.

(** The scan itself can raise: with [min_entries] at 0 the first row is
    evaluated on an empty window, and the empty slice of earlier labels
    is refused as an index. *)
Example scan_raises_on_empty_window :
  scan {| interval := 240; min_entries := 0; nbins := 80;
          cdf_limits := (23 # 100000, 99977 # 100000)%Q; buffer := (15 # 100)%Q |}
       (flat_then_jump 3)
  = Raise IndexError.
Proof. by vm_compute. Qed.

(** C7 as stated fails: on a hundred rows of a constant level no point
    is predicted a spike, and the precision divides by zero. *)
Lemma metrics_raise_on_clean_data :
  main default_config (flat_then_jump 100) = Raise ZeroDivisionError.
Proof. by vm_compute. Qed.

(** ** Lengths *)

Lemma bincount_length indices n : length (Numpy.bincount indices n) = n.
Proof. unfold Numpy.bincount. by rewrite length_map, length_seq. Qed.

Lemma linspace_length start stop n : length (Numpy.linspace start stop n) = S n.
Proof. unfold Numpy.linspace. by rewrite length_map, length_seq. Qed.

Lemma cumsum_from_length l : forall acc, length (Numpy.cumsum_from acc l) = length l.
Proof. induction l as [|x l IH]; intros acc; simpl; [done | by rewrite IH]. Qed.

Lemma cumsum_length l : length (Numpy.cumsum l) = length l.
Proof. destruct l; simpl; [done | by rewrite cumsum_from_length]. Qed.

Lemma cdf_of_length hist : length (cdf_of hist) = length hist.
Proof. unfold cdf_of. by rewrite cumsum_length, length_map. Qed.

(** ** Rational comparisons *)

Lemma Qlt_bool_true a b : Qlt_bool a b = true <-> (a < b)%Q.
Proof.
  unfold Qlt_bool. rewrite negb_true_iff. split.
  - intros H. apply Qnot_le_lt. intros Hle. apply Qle_bool_iff in Hle. congruence.
  - intros H. destruct (Qle_bool b a) eqn:E; [|done].
    apply Qle_bool_iff in E. apply Qlt_not_le in H. contradiction.
Qed.

Lemma Qlt_bool_false a b : Qlt_bool a b = false <-> (b <= a)%Q.
Proof.
  unfold Qlt_bool. rewrite negb_false_iff. apply Qle_bool_iff.
Qed.

Lemma Qle_bool_false a b : Qle_bool a b = false <-> (b < a)%Q.
Proof.
  split.
  - intros H. apply Qnot_le_lt. intros Hle. apply Qle_bool_iff in Hle. congruence.
  - intros H. destruct (Qle_bool a b) eqn:E; [|done].
    apply Qle_bool_iff in E. apply Qlt_not_le in H. contradiction.
Qed.

Lemma Qeq_bool_false a b : Qeq_bool a b = false <-> ~ (a == b)%Q.
Proof.
  split.
  - intros H Heq. apply Qeq_bool_iff in Heq. congruence.
  - intros H. destruct (Qeq_bool a b) eqn:E; [|done]. apply Qeq_bool_iff in E. contradiction.
Qed.

(** ** Linear interpolation between two knots *)

Lemma lerp_between (x0 y0 x1 y1 x : Q) :
  (x0 <= x)%Q -> (x < x1)%Q -> (y0 <= y1)%Q ->
  exists q,
    Scipy.lerp (Fin x0) y0 (Fin x1) y1 x = Fin q /\
    (q == y0 + (x - x0) * ((y1 - y0) / (x1 - x0)))%Q /\
    (y0 <= q)%Q /\ (q <= y1)%Q.
Proof.
  intros H0 H1 Hy. unfold Scipy.lerp, fsub, fneg, fadd, fdiv, fmul.
  assert (Hd : (0 < x1 - x0)%Q) by lra.
  assert (Hz : Qeq_bool (Qred (x1 + - x0)) 0 = false).
  { apply Qeq_bool_false. rewrite Qred_correct. lra. }
  rewrite Hz. eexists. split; [reflexivity|].
  rewrite !Qred_correct.
  set (s := ((y1 - y0) / (x1 - x0))%Q).
  assert (Hs : (s * (x1 - x0) == y1 - y0)%Q).
  { unfold s. field. lra. }
  assert (Hs0 : (0 <= s)%Q).
  { unfold s. apply Qle_shift_div_l; lra. }
  assert (Heq : ((y1 - y0) / (x1 + - x0) * (x + - x0) + y0 == y0 + (x - x0) * s)%Q).
  { unfold s. field. lra. }
  split; [exact Heq|]. rewrite Heq. split; [nra|nra].
Qed.


(** ** Walking the knots of a finite, non-decreasing CDF *)

Section Walk.
Implicit Types cdf bincenter : list Q.

Lemma sorted_cons_inv (a b : Q) (l : list Q) :
  StronglySorted Qle (a :: b :: l) -> (a <= b)%Q /\ StronglySorted Qle (b :: l).
Proof.
  intros H. apply StronglySorted_inv in H as [Hs Hall].
  split; [|done]. by apply Forall_inv in Hall.
Qed.

Lemma sorted_lookup_le (a : Q) (l : list Q) (j : nat) (b : Q) :
  StronglySorted Qle (a :: l) -> (a :: l) !! j = Some b -> (a <= b)%Q.
Proof.
  intros H Hj. destruct j as [|j]; simpl in Hj.
  - injection Hj as <-. lra.
  - apply StronglySorted_inv in H as [_ Hall].
    rewrite List.Forall_forall in Hall. apply Hall.
    apply list_elem_of_In. by eapply list_elem_of_lookup_2.
Qed.

(** From the first knot on, the walk yields a finite value between the
    first bin center and some bin center. *)
Lemma walk_range cdf : forall bincenter F0 c0 x,
  StronglySorted Qle (F0 :: cdf) ->
  StronglySorted Qle (c0 :: bincenter) ->
  (F0 <= x)%Q ->
  exists q,
    Scipy.walk (zip (map Fin (F0 :: cdf)) (c0 :: bincenter)) x = Fin q /\
    (c0 <= q)%Q /\ exists c, In c (c0 :: bincenter) /\ (q <= c)%Q.
Proof.
  induction cdf as [|F1 cdf IH]; intros bincenter F0 c0 x HF Hc Hx.
  - exists c0. simpl. split; [done|]. split; [lra|]. exists c0. split; [by left|lra].
  - destruct bincenter as [|c1 bincenter].
    { exists c0. simpl. split; [done|]. split; [lra|]. exists c0. split; [by left|lra]. }
    apply sorted_cons_inv in HF as [HF01 HF]. apply sorted_cons_inv in Hc as [Hc01 Hc].
    cbn [map zip zip_with Scipy.walk]. unfold fle.
    destruct (Qle_bool F1 x) eqn:E.
    + apply Qle_bool_iff in E.
      destruct (IH bincenter F1 c1 x HF Hc E) as (q & Hq & Hlo & c & Hin & Hhi).
      exists q. split; [exact Hq|]. split; [lra|]. exists c. split; [by right|done].
    + apply Qle_bool_false in E.
      destruct (lerp_between F0 c0 F1 c1 x Hx E Hc01) as (q & Hq & _ & Hlo & Hhi).
      exists q. split; [exact Hq|]. split; [done|].
      exists c1. split; [right; by left|done].
Qed.


(** A target inside a step of the CDF is interpolated on that step. *)
Lemma walk_between (j : nat) : forall cdf bincenter Fj Fj1 cj cj1 p,
  StronglySorted Qle cdf ->
  StronglySorted Qle bincenter ->
  cdf !! j = Some Fj -> cdf !! S j = Some Fj1 ->
  bincenter !! j = Some cj -> bincenter !! S j = Some cj1 ->
  (Fj <= p)%Q -> (p < Fj1)%Q ->
  exists q,
    Scipy.walk (zip (map Fin cdf) bincenter) p = Fin q /\
    (q == cj + (p - Fj) * ((cj1 - cj) / (Fj1 - Fj)))%Q.
Proof.
  induction j as [|j IH]; intros cdf bincenter Fj Fj1 cj cj1 p HF Hc HFj HFj1 Hcj Hcj1 Hlo Hhi.
  - destruct cdf as [|F0 [|F1 cdf]]; try done.
    destruct bincenter as [|c0 [|c1 bincenter]]; try done.
    simpl in HFj, HFj1, Hcj, Hcj1.
    injection HFj as ->. injection HFj1 as ->. injection Hcj as ->. injection Hcj1 as ->.
    apply sorted_cons_inv in Hc as [Hc01 _].
    cbn [map zip zip_with Scipy.walk]. unfold fle.
    replace (Qle_bool Fj1 p) with false by (symmetry; by apply Qle_bool_false).
    destruct (lerp_between Fj cj Fj1 cj1 p Hlo Hhi Hc01) as (q & Hq & Heq & _).
    by exists q.
  - destruct cdf as [|F0 [|F1 cdf]]; try done.
    destruct bincenter as [|c0 [|c1 bincenter]]; try done.
    apply sorted_cons_inv in HF as [_ HF]. apply sorted_cons_inv in Hc as [_ Hc].
    cbn [map zip zip_with Scipy.walk]. unfold fle.
    assert (HF1 : (F1 <= Fj)%Q) by (by eapply (sorted_lookup_le F1 cdf j)).
    replace (Qle_bool F1 p) with true by (symmetry; apply Qle_bool_iff; lra).
    by apply (IH (F1 :: cdf) (c1 :: bincenter) Fj Fj1 cj cj1 p).
Qed.

Lemma last_cons_default (l : list Q) : forall a d : Q,
  List.last (a :: l) d = List.last l a.
Proof.
  induction l as [|b l IH]; intros a d; [done|].
  change (List.last (a :: b :: l) d) with (List.last (b :: l) d).
  by rewrite !IH.
Qed.

(** A target that no cumulative probability exceeds ends on the last
    bin center. *)
Lemma walk_at_end cdf : forall bincenter p F0 c0,
  length cdf = length bincenter ->
  Forall (fun F => (F <= p)%Q) cdf ->
  Scipy.walk (zip (map Fin (F0 :: cdf)) (c0 :: bincenter)) p
  = Fin (List.last bincenter c0).
Proof.
  induction cdf as [|F1 cdf IH]; intros [|c1 bincenter] p F0 c0 Hlen Hall; try done.
  apply Forall_cons in Hall as [H1 Hall].
  cbn [map zip zip_with Scipy.walk]. unfold fle.
  replace (Qle_bool F1 p) with true by (symmetry; by apply Qle_bool_iff).
  transitivity (Scipy.walk (zip (map Fin (F1 :: cdf)) (c1 :: bincenter)) p); [done|].
  rewrite (IH bincenter p F1 c1); [|simpl in Hlen; lia|done].
  by rewrite last_cons_default.
Qed.
End Walk.

(** ** Minimum and maximum of the bin centers *)

Lemma qmin_le a b : (Numpy.qmin a b <= a)%Q /\ (Numpy.qmin a b <= b)%Q.
Proof.
  unfold Numpy.qmin. destruct (Qle_bool a b) eqn:E.
  - apply Qle_bool_iff in E. lra.
  - apply Qle_bool_false in E. lra.
Qed.

Lemma qmax_ge a b : (a <= Numpy.qmax a b)%Q /\ (b <= Numpy.qmax a b)%Q.
Proof.
  unfold Numpy.qmax. destruct (Qle_bool a b) eqn:E.
  - apply Qle_bool_iff in E. lra.
  - apply Qle_bool_false in E. lra.
Qed.

Lemma foldl_qmin_le (l : list Q) : forall x y,
  In y (x :: l) -> (foldl Numpy.qmin x l <= y)%Q.
Proof.
  induction l as [|a l IH]; intros x y Hin; simpl in *.
  - destruct Hin as [Hx|[]]. rewrite Hx. lra.
  - pose proof (qmin_le x a) as [H1 H2].
    pose proof (IH (Numpy.qmin x a) (Numpy.qmin x a) (or_introl eq_refl)) as H0.
    destruct Hin as [Hx|[Ha|Hin]]; [rewrite <- Hx; lra | rewrite <- Ha; lra |].
    apply IH. by right.
Qed.

Lemma foldl_qmax_ge (l : list Q) : forall x y,
  In y (x :: l) -> (y <= foldl Numpy.qmax x l)%Q.
Proof.
  induction l as [|a l IH]; intros x y Hin; simpl in *.
  - destruct Hin as [Hx|[]]. rewrite Hx. lra.
  - pose proof (qmax_ge x a) as [H1 H2].
    pose proof (IH (Numpy.qmax x a) (Numpy.qmax x a) (or_introl eq_refl)) as H0.
    destruct Hin as [Hx|[Ha|Hin]]; [rewrite <- Hx; lra | rewrite <- Ha; lra |].
    apply IH. by right.
Qed.



(** ** The edges and the bin centers *)

Lemma outer_edges_le v : ((Numpy.outer_edges v).1 <= (Numpy.outer_edges v).2)%Q.
Proof.
  destruct v as [|x v]; simpl; [lra|].
  pose proof (foldl_qmin_le v x x (or_introl eq_refl)).
  pose proof (foldl_qmax_ge v x x (or_introl eq_refl)).
  destruct (Qeq_bool _ _); simpl; lra.
Qed.

Lemma bincenters_map (f : nat -> Q) (n : nat) (a : nat) :
  bincenters (map f (seq a (S n)))
  = map (fun k => (f k + (f (S k) - f k) / 2)%Q) (seq a n).
Proof.
  unfold bincenters.
  replace (removelast (map f (seq a (S n)))) with (map f (seq a n))
    by (rewrite seq_S, List.map_app; simpl; by rewrite removelast_last).
  change (tail (map f (seq a (S n)))) with (map f (seq (S a) n)).
  revert a. induction n as [|n IH]; intros a; [done|].
  simpl. f_equal. apply IH.
Qed.

Lemma of_nat_le (a b : nat) : (a <= b)%nat -> (of_nat a <= of_nat b)%Q.
Proof. intros H. unfold of_nat. rewrite <- Zle_Qle. lia. Qed.

Lemma of_nat_S (a : nat) : (of_nat (S a) == of_nat a + 1)%Q.
Proof. unfold of_nat. rewrite Nat2Z.inj_succ, <- Z.add_1_r, inject_Z_plus. reflexivity. Qed.

Lemma sorted_map_seq (g : nat -> Q) (n : nat) : forall a,
  (forall k, (g k <= g (S k))%Q) ->
  StronglySorted Qle (map g (seq a n)).
Proof.
  intros a Hg. apply Sorted_StronglySorted; [intros x y z; apply Qle_trans|].
  revert a. induction n as [|n IH]; intros a; simpl; [constructor|].
  constructor; [apply IH|]. destruct n; simpl; constructor. apply Hg.
Qed.

Lemma bincenters_sorted start stop n :
  (start <= stop)%Q ->
  StronglySorted Qle (bincenters (Numpy.linspace start stop n)).
Proof.
  intros Hle. unfold Numpy.linspace. rewrite bincenters_map.
  apply sorted_map_seq. intros k.
  assert (Hstep : (0 <= (stop - start) / of_nat n)%Q).
  { destruct n as [|n].
    - unfold Qdiv. change (/ of_nat 0)%Q with 0%Q. lra.
    - apply Qle_shift_div_l; [|lra].
      unfold of_nat. change 0%Q with (inject_Z 0). rewrite <- Zlt_Qlt. lia. }
  set (step := ((stop - start) / of_nat n)%Q) in *.
  rewrite !of_nat_S. set (u := of_nat k).
  assert (E : (start + (u + 1) * step + (start + (u + 1 + 1) * step - (start + (u + 1) * step)) / 2
               == start + u * step + (start + (u + 1) * step - (start + u * step)) / 2 + step)%Q)
    by field.
  rewrite E. lra.
Qed.

(** ** Sorting knots that are already in order *)

Lemma sort_knots_sorted (l : list (float * Q)) :
  Sorted (fun a b => Scipy.key_le a.1 b.1 = true) l -> Scipy.sort_knots l = l.
Proof.
  induction 1 as [|a l Hs IH Hhd]; [done|].
  unfold Scipy.sort_knots in *. cbn [foldr]. rewrite IH.
  destruct Hhd as [|b l Hab]; simpl; [done|]. by rewrite Hab.
Qed.

Lemma knots_sorted_finite (cdf bincenter : list Q) :
  StronglySorted Qle cdf ->
  Sorted (fun a b => Scipy.key_le a.1 b.1 = true) (zip (map Fin cdf) bincenter).
Proof.
  intros H. apply StronglySorted_Sorted in H.
  revert bincenter. induction H as [|F cdf Hs IH Hhd]; intros [|c bincenter]; simpl;
    try constructor; try apply IH.
  destruct Hhd as [|F' cdf' HF]; destruct bincenter; simpl; constructor.
  simpl. by apply Qle_bool_iff.
Qed.

Lemma knots_sorted_nan (n : nat) : forall bincenter : list Q,
  Sorted (fun a b => Scipy.key_le a.1 b.1 = true) (zip (replicate n NaN) bincenter).
Proof.
  induction n as [|n IH]; intros [|c bincenter]; simpl; try constructor; try apply IH.
  destruct n, bincenter; simpl; by constructor.
Qed.

(** ** The cumulative distribution *)

Lemma sum_zero hist : Numpy.sum hist = 0%nat -> Forall (fun h => h = 0%nat) hist.
Proof.
  induction hist as [|h hist IH]; simpl; intros H; constructor; [lia|apply IH; lia].
Qed.

Lemma cumsum_from_nan l : forall n,
  l = replicate n NaN -> Numpy.cumsum_from NaN l = replicate n NaN.
Proof.
  induction l as [|x l IH]; intros [|n] H; simpl in *; try done.
  injection H as -> H. f_equal. by apply IH.
Qed.

Lemma cumsum_from_finite (l : list Q) : forall acc,
  Forall (fun x => (0 <= x)%Q) l ->
  exists qs, Numpy.cumsum_from (Fin acc) (map Fin l) = map Fin qs /\
             StronglySorted Qle (acc :: qs).
Proof.
  induction l as [|x l IH]; intros acc Hall.
  - exists []. split; [done|]. repeat constructor.
  - apply Forall_cons in Hall as [Hx Hall]. simpl.
    destruct (IH (Qred (acc + x)) Hall) as (qs & Hqs & Hsorted).
    exists (Qred (acc + x) :: qs). split; [by rewrite Hqs|].
    assert (Hstep : (acc <= Qred (acc + x))%Q) by (rewrite Qred_correct; lra).
    constructor; [done|]. constructor; [done|].
    apply StronglySorted_inv in Hsorted as [_ Hrest].
    eapply List.Forall_impl; [|exact Hrest]. simpl. intros a Ha. lra.
Qed.

(** The CDF of a histogram without entries is NaN throughout. *)
Lemma cdf_of_empty hist :
  Numpy.sum hist = 0%nat -> cdf_of hist = replicate (length hist) NaN.
Proof.
  intros Hz. unfold cdf_of. rewrite Hz. apply sum_zero in Hz.
  assert (Hm : map (fun h => fdiv (Fin (of_nat h)) (Fin (of_nat 0))) hist
               = replicate (length hist) NaN).
  { induction Hz as [|h hist -> _ IH]; [done|].
    cbn [map length replicate]. by rewrite IH. }
  rewrite Hm. destruct hist as [|h hist]; simpl; [done|].
  f_equal. by apply cumsum_from_nan.
Qed.

(** The CDF of a histogram with entries is finite and does not
    decrease. *)
Lemma cdf_of_finite hist :
  Numpy.sum hist <> 0%nat ->
  exists qs, cdf_of hist = map Fin qs /\ StronglySorted Qle qs.
Proof.
  intros Hnz. unfold cdf_of. set (s := Numpy.sum hist) in *.
  assert (Hs : Qeq_bool (of_nat s) 0 = false).
  { apply Qeq_bool_false. unfold of_nat. intros H.
    change 0%Q with (inject_Z 0) in H.
    apply (proj1 (inject_Z_injective _ _)) in H. lia. }
  assert (Hm : map (fun h => fdiv (Fin (of_nat h)) (Fin (of_nat s))) hist
               = map Fin (map (fun h => Qred (of_nat h / of_nat s)) hist)).
  { rewrite map_map. apply map_ext. intros h. unfold fdiv. by rewrite Hs. }
  rewrite Hm.
  assert (Hpos : Forall (fun x => (0 <= x)%Q) (map (fun h => Qred (of_nat h / of_nat s)) hist)).
  { apply List.Forall_forall. intros x Hx. apply in_map_iff in Hx as (h & <- & _).
    rewrite Qred_correct. apply Qle_shift_div_l.
    - unfold of_nat. change 0%Q with (inject_Z 0). rewrite <- Zlt_Qlt. lia.
    - rewrite Qmult_0_l. unfold of_nat. change 0%Q with (inject_Z 0).
      rewrite <- Zle_Qle. lia. }
  destruct (map (fun h => Qred (of_nat h / of_nat s)) hist) as [|x l]; simpl.
  - exists []. split; [done|constructor].
  - apply Forall_cons in Hpos as [_ Hpos].
    destruct (cumsum_from_finite l x Hpos) as (qs & Hqs & Hsorted).
    exists (x :: qs). split; [by rewrite Hqs|done].
Qed.

Lemma cdf_of_cases hist :
  cdf_of hist = replicate (length hist) NaN \/
  exists qs, cdf_of hist = map Fin qs /\ StronglySorted Qle qs.
Proof.
  destruct (Nat.eq_dec (Numpy.sum hist) 0%nat) as [Hz|Hnz].
  - left. by apply cdf_of_empty.
  - right. by apply cdf_of_finite.
Qed.

(** ** Rounding *)

Lemma rint_monotone x y : (x <= y)%Q -> Numpy.rint x <= Numpy.rint y.
Proof.
  intros Hxy. unfold Numpy.rint.
  pose proof (Qfloor_resp_le x y Hxy) as Hf.
  pose proof (Qfloor_le x) as Hx1. pose proof (Qlt_floor x) as Hx2.
  pose proof (Qfloor_le y) as Hy1. pose proof (Qlt_floor y) as Hy2.
  assert (Hcase : Qfloor x < Qfloor y \/ Qfloor x = Qfloor y) by lia.
  destruct Hcase as [Hlt|Heq].
  - assert (Qfloor x + 1 <= Qfloor y) by lia.
    destruct (x - inject_Z (Qfloor x) ?= 1 # 2)%Q, (y - inject_Z (Qfloor y) ?= 1 # 2)%Q;
      repeat match goal with |- context [Z.even ?z] => destruct (Z.even z) end; lia.
  - rewrite <- Heq in *.
    destruct (x - inject_Z (Qfloor x) ?= 1 # 2)%Q eqn:Ex;
      destruct (y - inject_Z (Qfloor x) ?= 1 # 2)%Q eqn:Ey;
      repeat match goal with |- context [Z.even ?z] => destruct (Z.even z) end;
      try lia; exfalso;
      first [apply (proj2 (Qeq_alt _ _)) in Ex | apply (proj2 (Qlt_alt _ _)) in Ex
            | apply (proj2 (Qgt_alt _ _)) in Ex];
      first [apply (proj2 (Qeq_alt _ _)) in Ey | apply (proj2 (Qlt_alt _ _)) in Ey
            | apply (proj2 (Qgt_alt _ _)) in Ey];
      lra.
Qed.

Lemma round_monotone x y d : (x <= y)%Q -> (Numpy.round x d <= Numpy.round y d)%Q.
Proof.
  intros Hxy. unfold Numpy.round.
  assert (Hscale : (0 < inject_Z (10 ^ Z.of_nat d))%Q).
  { change 0%Q with (inject_Z 0). rewrite <- Zlt_Qlt. apply Z.pow_pos_nonneg; lia. }
  set (scale := inject_Z (10 ^ Z.of_nat d)) in *.
  apply Qle_shift_div_l; [done|].
  unfold Qdiv. rewrite <- Qmult_assoc, (Qmult_comm (/ scale)), Qmult_inv_r, Qmult_1_r by lra.
  rewrite <- Zle_Qle. apply rint_monotone. nra.
Qed.

(** ** The interpolated inverse CDF *)

Lemma interp1d_inv x y icdf :
  Scipy.interp1d x y = Ok icdf ->
  length x = length y /\ (2 <= length x)%nat /\
  icdf = fun x_new =>
           match head (Scipy.sort_knots (zip x y)), last (Scipy.sort_knots (zip x y)) with
           | Some (x_first, _), Some (x_last, _) =>
               if flt (Fin x_new) x_first || fgt (Fin x_new) x_last then NaN
               else Scipy.np_interp (Scipy.sort_knots (zip x y)) x_new
           | _, _ => NaN
           end.
Proof.
  unfold Scipy.interp1d.
  destruct (Nat.eqb_spec (length x) (length y)); simpl; [|done].
  destruct (Nat.ltb_spec (length x) 2); [done|].
  intros [= <-]. done.
Qed.

(** Over a CDF that is NaN throughout, the interpolant is NaN. *)
Lemma icdf_nan (n : nat) bincenter icdf x :
  Scipy.interp1d (replicate n NaN) bincenter = Ok icdf -> icdf x = NaN.
Proof.
  intros H. apply interp1d_inv in H as (Hlen & H2 & ->).
  rewrite sort_knots_sorted by apply knots_sorted_nan.
  rewrite length_replicate in Hlen, H2.
  destruct n as [|[|n]]; [lia..|].
  destruct bincenter as [|c0 [|c1 bincenter]]; [simpl in Hlen; lia..|].
  cbn [replicate zip zip_with head].
  destruct (last _) as [[x_last y_last]|]; [|done].
  destruct (flt (Fin x) NaN || fgt (Fin x) x_last); [done|].
  reflexivity.
Qed.

(** Over a finite, non-decreasing CDF, the interpolant is NaN or the
    result of the walk from the first knot. *)
Lemma icdf_finite F0 cdf c0 bincenter icdf x :
  StronglySorted Qle (F0 :: cdf) ->
  Scipy.interp1d (map Fin (F0 :: cdf)) (c0 :: bincenter) = Ok icdf ->
  icdf x = NaN \/
  ((F0 <= x)%Q /\ icdf x = Scipy.walk (zip (map Fin (F0 :: cdf)) (c0 :: bincenter)) x).
Proof.
  intros HF H. apply interp1d_inv in H as (Hlen & H2 & ->).
  rewrite sort_knots_sorted by (by apply knots_sorted_finite).
  destruct (last _) as [[x_last y_last]|]; cbn [map zip zip_with head]; [|by left].
  destruct (flt (Fin x) (Fin F0) || fgt (Fin x) x_last) eqn:E; [by left|].
  right. apply orb_false_iff in E as [E _].
  unfold Scipy.np_interp. rewrite E. split; [|done].
  by apply Qlt_bool_false.
Qed.

(** ** The interval is ordered *)


Lemma histogram_inv a bins hist edges :
  Numpy.histogram a bins = Ok (hist, edges) ->
  exists v, Numpy.all_finite a = Some v /\
    hist = Numpy.bincount
             (map (Numpy.bin_index (Numpy.outer_edges v).1 (Numpy.outer_edges v).2 bins) v) bins /\
    edges = Numpy.linspace (Numpy.outer_edges v).1 (Numpy.outer_edges v).2 bins.
Proof.
  unfold Numpy.histogram. destruct (bins =? 0)%nat; [done|].
  destruct (Numpy.all_finite a) as [v|]; [|done].
  destruct (Numpy.outer_edges v) as [first_edge last_edge] eqn:E.
  intros [= <- <-]. exists v. rewrite E. auto.
Qed.



(** ** The counts of the histogram *)

Lemma all_finite_length a : forall v, Numpy.all_finite a = Some v -> length v = length a.
Proof.
  induction a as [|x a IH]; intros v H; simpl in H.
  - by injection H as <-.
  - destruct x; try done. destruct (Numpy.all_finite a) as [v'|]; [|done].
    injection H as <-. simpl. by rewrite (IH v').
Qed.

Lemma outer_edges_range v x :
  In x v ->
  ((Numpy.outer_edges v).1 < (Numpy.outer_edges v).2)%Q /\ (x <= (Numpy.outer_edges v).2)%Q.
Proof.
  destruct v as [|y v]; [done|]. intros Hin. simpl.
  pose proof (foldl_qmin_le v y y (or_introl eq_refl)) as Hmin.
  pose proof (foldl_qmax_ge v y y (or_introl eq_refl)) as Hmax.
  pose proof (foldl_qmax_ge v y x Hin) as Hx.
  destruct (Qeq_bool _ _) eqn:E; simpl.
  - apply Qeq_bool_iff in E. lra.
  - apply Qeq_bool_false in E. split; [|done].
    apply Qle_lteq in Hmin as [Hlt|Heq]; [|lra].
    destruct (Qlt_le_dec (foldl Numpy.qmin y v) (foldl Numpy.qmax y v)); [done|].
    exfalso. apply E. lra.
Qed.

(** Every value up to the last edge falls into one of the bins. *)
Lemma bin_index_lt first_edge last_edge n x :
  (0 < n)%nat -> (first_edge < last_edge)%Q -> (x <= last_edge)%Q ->
  (Numpy.bin_index first_edge last_edge n x < n)%nat.
Proof.
  intros Hn Hlt Hx. unfold Numpy.bin_index.
  set (t := ((x - first_edge) * (of_nat n / (last_edge - first_edge)))%Q).
  destruct (Nat.eqb_spec (Z.to_nat (Qfloor t)) n) as [|Hne]; [lia|].
  assert (Ht : (t <= of_nat n)%Q).
  { unfold t. set (w := (last_edge - first_edge)%Q).
    assert (Hw : (0 < w)%Q) by (unfold w; lra).
    assert (Hn0 : (0 <= of_nat n)%Q) by (apply (of_nat_le 0); lia).
    assert (Hr : (0 <= of_nat n / w)%Q) by (apply Qle_shift_div_l; lra).
    assert (Hfull : (w * (of_nat n / w) == of_nat n)%Q) by (field; lra).
    assert (x - first_edge <= w)%Q by (unfold w; lra). nra. }
  apply Qfloor_resp_le in Ht. unfold of_nat in Ht. rewrite Qfloor_Z in Ht. lia.
Qed.

Lemma sum_indicator (i n : nat) : forall a,
  Numpy.sum (map (fun k => if (k =? i)%nat then 1%nat else 0%nat) (seq a n))
  = if decide (a <= i < a + n)%nat then 1%nat else 0%nat.
Proof.
  induction n as [|n IH]; intros a; simpl.
  - case_decide; [lia|done].
  - rewrite IH. destruct (Nat.eqb_spec a i); repeat case_decide; lia.
Qed.

Lemma sum_map_add (f g : nat -> nat) (l : list nat) :
  Numpy.sum (map (fun k => (f k + g k)%nat) l)
  = (Numpy.sum (map f l) + Numpy.sum (map g l))%nat.
Proof. induction l as [|k l IH]; simpl; [done|]. rewrite IH. lia. Qed.

Lemma bincount_sum indices n :
  Forall (fun i => (i < n)%nat) indices ->
  Numpy.sum (Numpy.bincount indices n) = length indices.
Proof.
  unfold Numpy.bincount. induction 1 as [|i indices Hi _ IH]; simpl.
  - induction (seq 0 n) as [|k l IHl]; simpl; [done|exact IHl].
  - rewrite <- IH.
    rewrite (map_ext _ (fun k => ((if (k =? i)%nat then 1 else 0)
                                  + length (List.filter (Nat.eqb k) indices))%nat)).
    + rewrite sum_map_add, sum_indicator. case_decide; lia.
    + intros k. by destruct (k =? i)%nat.
Qed.

(** The counts of the histogram add up to the number of values. *)
Lemma histogram_counts a bins hist edges :
  Numpy.histogram a bins = Ok (hist, edges) -> Numpy.sum hist = length a.
Proof.
  intros H. pose proof H as H0. unfold Numpy.histogram in H0.
  destruct (Nat.eqb_spec bins 0) as [|Hbins]; [done|]. clear H0.
  apply histogram_inv in H as (v & Hv & -> & _).
  rewrite bincount_sum, length_map; [by apply all_finite_length|].
  apply List.Forall_forall. intros i Hi. apply in_map_iff in Hi as (x & <- & Hx).
  destruct (outer_edges_range v x Hx) as [Hlt Hle].
  apply bin_index_lt; [lia|done|done].
Qed.

(** What the builder hands to the estimator: for a window with at least
    one included value, finite cumulative probabilities that do not
    decrease and bin centers in increasing order; for a window without
    one, cumulative probabilities that are NaN. *)
Lemma builder_feeds_estimator values bins hist edges :
  Numpy.histogram values bins = Ok (hist, edges) ->
  StronglySorted Qle (bincenters edges) /\
  (values <> [] ->
   exists cdf, cdf_of hist = map Fin cdf /\ StronglySorted Qle cdf) /\
  (values = [] -> cdf_of hist = replicate bins NaN).
Proof.
  intros H. pose proof (histogram_counts _ _ _ _ H) as Hsum.
  apply histogram_inv in H as (v & Hv & Hhist & ->).
  split; [apply bincenters_sorted, outer_edges_le|]. split.
  - intros Hne. apply cdf_of_finite. rewrite Hsum. by destruct values.
  - intros ->. rewrite cdf_of_empty by done.
    by rewrite Hhist, bincount_length.
Qed.

(** ** The estimator interpolates *)

Lemma last_zip_fin (cdf : list Q) : forall (bincenter : list Q) F_last c_last,
  length cdf = length bincenter ->
  last cdf = Some F_last -> last bincenter = Some c_last ->
  last (zip (map Fin cdf) bincenter) = Some (Fin F_last, c_last).
Proof.
  induction cdf as [|F0 [|F1 cdf] IH]; intros [|c0 [|c1 bincenter]] F_last c_last Hlen HF Hc;
    try done.
  - simpl in *. congruence.
  - change (last (zip (map Fin (F1 :: cdf)) (c1 :: bincenter)) = Some (Fin F_last, c_last)).
    apply IH; [simpl in *; lia|done|done].
Qed.

Lemma interpolated_cons F0 c0 cdf bincenter p r :
  cdf <> [] -> bincenter <> [] -> (F0 <= p)%Q ->
  interpolated cdf bincenter p r ->
  (forall q, r = Fin q -> interpolated (F0 :: cdf) (c0 :: bincenter) p (Fin q)).
Proof.
  intros Hcdf Hbc Hp H q ->. inversion H as [j Fj Fj1 cj cj1 q' | F_last c_last |]; subst.
  - by eapply (interpolated_between _ _ _ (S j)).
  - eapply interpolated_at_end; [| |done].
    + destruct cdf; [done|]. by rewrite last_cons_cons.
    + destruct bincenter; [done|]. by rewrite last_cons_cons.
Qed.

Lemma walk_interpolated (cdf : list Q) : forall bincenter F0 c0 p F_last,
  StronglySorted Qle (F0 :: cdf) ->
  StronglySorted Qle (c0 :: bincenter) ->
  length cdf = length bincenter ->
  last (F0 :: cdf) = Some F_last ->
  (F0 <= p)%Q -> (p <= F_last)%Q ->
  exists q,
    Scipy.walk (zip (map Fin (F0 :: cdf)) (c0 :: bincenter)) p = Fin q /\
    interpolated (F0 :: cdf) (c0 :: bincenter) p (Fin q).
Proof.
  induction cdf as [|F1 cdf IH]; intros [|c1 bincenter] F0 c0 p F_last HF Hc Hlen Hlast H0 H1;
    try done.
  - injection Hlast as <-. exists c0. split; [done|].
    eapply interpolated_at_end; [done|done|lra].
  - apply sorted_cons_inv in HF as [HF01 HF]. apply sorted_cons_inv in Hc as [Hc01 Hc].
    rewrite last_cons_cons in Hlast.
    cbn [map zip zip_with Scipy.walk]. unfold fle.
    destruct (Qle_bool F1 p) eqn:E.
    + apply Qle_bool_iff in E.
      destruct (IH bincenter F1 c1 p F_last HF Hc) as (q & Hq & Hi);
        [simpl in Hlen; lia|done|done|done|].
      exists q. split; [exact Hq|].
      by eapply (interpolated_cons F0 c0 (F1 :: cdf) (c1 :: bincenter) p (Fin q)).
    + apply Qle_bool_false in E.
      destruct (lerp_between F0 c0 F1 c1 p H0 E Hc01) as (q & Hq & Heq & _).
      exists q. split; [exact Hq|].
      by eapply (interpolated_between _ _ _ 0%nat F0 F1 c0 c1).
Qed.

(** The value of the interpolant built by [interp1d] over a finite,
    non-decreasing CDF. *)
Lemma icdf_interpolated cdf bincenter icdf p :
  StronglySorted Qle cdf -> StronglySorted Qle bincenter ->
  Scipy.interp1d (map Fin cdf) bincenter = Ok icdf ->
  interpolated cdf bincenter p (icdf p).
Proof.
  intros HF Hc H. apply interp1d_inv in H as (Hlen & H2 & ->).
  rewrite length_map in Hlen, H2.
  rewrite sort_knots_sorted by (by apply knots_sorted_finite).
  destruct cdf as [|F0 cdf]; [simpl in H2; lia|].
  destruct bincenter as [|c0 bincenter]; [simpl in Hlen; lia|].
  assert (is_Some (last (F0 :: cdf))) as [F_last HFl] by (by apply last_is_Some).
  assert (is_Some (last (c0 :: bincenter))) as [c_last Hcl] by (by apply last_is_Some).
  rewrite (last_zip_fin _ _ F_last c_last Hlen HFl Hcl).
  cbn [map zip zip_with head]. unfold fgt, flt.
  destruct (Qlt_bool p F0) eqn:E0.
  { apply Qlt_bool_true in E0. eapply interpolated_outside; [done|done|by left]. }
  destruct (Qlt_bool F_last p) eqn:El.
  { apply Qlt_bool_true in El. eapply interpolated_outside; [done|done|by right]. }
  apply Qlt_bool_false in E0. apply Qlt_bool_false in El.
  cbn [orb]. unfold Scipy.np_interp, flt.
  replace (Qlt_bool p F0) with false by (symmetry; by apply Qlt_bool_false).
  destruct (walk_interpolated cdf bincenter F0 c0 p F_last HF Hc) as (q & Hq & Hi);
    [simpl in Hlen; lia|done|done|done|].
  change (Scipy.walk ((Fin F0, c0) :: zip_with pair (map Fin cdf) bincenter) p)
    with (Scipy.walk (zip (map Fin (F0 :: cdf)) (c0 :: bincenter)) p).
  by rewrite Hq.
Qed.

(** C1, as the code has it. Over a finite, non-decreasing CDF the
    estimator takes each bound from the piecewise linear interpolation of
    the bin centers against the cumulative probabilities at its limit;
    where the interpolation gives no finite value (a limit below the
    first or above the last cumulative probability) the lower bound is
    the minimum and the upper bound the maximum bin center. *)
Theorem estimate_interpolates cdf bincenter limits lower upper :
  StronglySorted Qle cdf ->
  StronglySorted Qle bincenter ->
  estimate (map Fin cdf) bincenter limits = Ok (lower, upper) ->
  exists r_low r_high,
    interpolated cdf bincenter limits.1 r_low /\
    interpolated cdf bincenter limits.2 r_high /\
    match r_low with Fin q => Ok q | _ => Numpy.py_min bincenter end = Ok lower /\
    match r_high with Fin q => Ok q | _ => Numpy.py_max bincenter end = Ok upper.
Proof.
  intros HF Hc H. unfold estimate in H.
  inv_bind H. rename a into icdf, Ha into Hicdf.
  inv_bind H. rename a into lo, Ha into Hlo.
  inv_bind H. rename a into up, Ha into Hup.
  injection H as <- <-.
  exists (icdf limits.1), (icdf limits.2).
  split; [by apply icdf_interpolated|]. split; [by apply icdf_interpolated|]. done.
Qed.

Lemma estimate_interpolates_witness :
  exists r_low r_high,
    interpolated [1 # 2; 1]%Q [1 # 4; 3 # 4]%Q (23 # 100000) r_low /\
    interpolated [1 # 2; 1]%Q [1 # 4; 3 # 4]%Q (99977 # 100000) r_high /\
    match r_low with Fin q => Ok q | _ => Numpy.py_min [1 # 4; 3 # 4]%Q end = Ok (1 # 4)%Q /\
    match r_high with Fin q => Ok q | _ => Numpy.py_max [1 # 4; 3 # 4]%Q end
    = Ok (74977 # 100000)%Q.
Proof.
  apply (estimate_interpolates [1 # 2; 1]%Q [1 # 4; 3 # 4]%Q (cdf_limits default_config)).
  - repeat constructor; unfold Qle; simpl; lia.
  - repeat constructor; unfold Qle; simpl; lia.
  - vm_compute. reflexivity.
Defined.

(** C1 as stated fails. At index 100 of a level sequence the code finds
    the interval [-0.156, 0.156]; the smallest bin center whose
    cumulative probability reaches the lower limit would give -0.144. *)
Lemma quantile_differs_from_interpolation :
  build_histogram default_config
    (subdata_at default_config (flat_then_jump 101) 100) (replicate 99 false)
  = Ok (- 15600 # 100000, 15600 # 100000)%Q /\
  spec_build_histogram default_config
    (subdata_at default_config (flat_then_jump 101) 100) (replicate 99 false)
  = Ok (- 14400 # 100000, 15600 # 100000)%Q /\
  ~ (- 15600 # 100000 == - 14400 # 100000)%Q.
Proof.
  split; [vm_compute; reflexivity|]. split; [vm_compute; reflexivity|].
  unfold Qeq. simpl. lia.
Qed.

(** ** A window in which every value is already a spike *)


(** * Further properties of the scan, the builder and the evaluator *)

(** ** What the scanner has written when it reaches a row *)

(** As [scan_from_visit], and moreover: when a row is reached, its own
    label and the later ones have not been written yet. *)
Lemma scan_from_visit_fresh cfg data rows : forall index labels labels' k point,
  scan_from cfg data index rows labels = Ok labels' ->
  rows !! k = Some point ->
  exists before after,
    scan_body cfg data before (index + k) point = Ok after /\
    (forall j, (j < index + k)%nat -> labels' !! j = before !! j) /\
    (forall j, (index + k <= j)%nat -> before !! j = labels !! j) /\
    labels' !! (index + k)%nat = after !! (index + k)%nat.
Proof.
  induction rows as [|p rows IH]; simpl; intros index labels labels' k point H Hk; [done|].
  inv_bind H. destruct k as [|k]; simpl in Hk.
  - injection Hk as ->. exists labels, a. rewrite Nat.add_0_r.
    apply scan_from_frame in H as [_ Hpre].
    split; [done|]. split; [|split; [done|apply Hpre; lia]].
    intros j Hj. rewrite Hpre by lia. eapply scan_body_other; eauto. lia.
  - destruct (IH _ _ _ _ _ H Hk) as (before & after & Hb & Hpre & Hfresh & Hat).
    exists before, after. replace (index + S k)%nat with (S index + k)%nat by lia.
    split; [done|]. split; [done|]. split; [|done].
    intros j Hj. rewrite Hfresh by done. eapply scan_body_other; eauto. lia.
Qed.

(** The label of a visited row, read off the final label array. *)
Lemma scan_label_cases cfg data labels (i : nat) point :
  scan cfg data = Ok labels ->
  data !! i = Some point ->
  (evaluated cfg data i = false /\ labels !! i = Some false) \/
  (evaluated cfg data i = true /\
   exists limit_range,
     build_histogram cfg (subdata_at cfg data (Z.of_nat i))
       (previous_spikes_at cfg labels (Z.of_nat i)) = Ok limit_range /\
     labels !! i = Some (classify point limit_range)).
Proof.
  intros Hscan Hpt. unfold scan in Hscan.
  destruct (scan_from_visit_fresh _ _ _ _ _ _ _ _ Hscan Hpt)
    as (before & after & Hbody & Hpre & Hfresh & Hat).
  simpl in *. apply scan_body_Ok in Hbody as [[He ->]|(He & Hlt & _ & lr & Hb & ->)].
  - left. split; [done|]. rewrite Hat, Hfresh by lia.
    apply lookup_replicate_2. by eapply lookup_lt_Some.
  - right. split; [done|]. exists lr. split.
    + rewrite <- Hb. f_equal. apply iloc_agree. intros j Hj. apply Hpre.
      unfold end_index in Hj. lia.
    + rewrite Hat. by apply list_lookup_insert_eq.
Qed.

(** X5. A label [True] in the final array stands at an evaluated index
    whose raw value is not NaN: the rows of the warm-up, the rows skipped
    for want of valid entries and the rows without a raw value are never
    flagged. *)
Theorem flagged_row_was_evaluated cfg data labels (i : nat) :
  scan cfg data = Ok labels ->
  labels !! i = Some true ->
  exists point,
    data !! i = Some point /\ evaluated cfg data i = true /\ raw point <> NaN.
Proof.
  intros Hscan Hi.
  assert (Hlt : (i < length data)%nat).
  { rewrite <- (scan_length _ _ _ Hscan). by eapply lookup_lt_Some. }
  destruct (lookup_lt_is_Some_2 data i Hlt) as [point Hpt].
  exists point. split; [done|].
  destruct (scan_label_cases _ _ _ _ _ Hscan Hpt) as [[_ Hf]|(He & lr & _ & Hl)];
    [congruence|].
  split; [done|]. intros Hnan. rewrite Hl in Hi. unfold classify in Hi.
  rewrite Hnan in Hi. done.
Qed.

Lemma flagged_row_was_evaluated_witness :
  exists point,
    flat_then_jump 101 !! 100%nat = Some point /\
    evaluated default_config (flat_then_jump 101) 100 = true /\ raw point <> NaN.
Proof.
  apply (flagged_row_was_evaluated default_config (flat_then_jump 101)
           (replicate 100 false ++ [true]) 100); by vm_compute.
Defined.

(** ** The labels depend on the earlier raw values only *)

Lemma iloc_map {A B : Type} (f : A -> B) (l : list A) (b e : Z) :
  map f (iloc l b e) = iloc (map f l) b e.
Proof.
  unfold iloc. change (map f) with (fmap (M:=list) f). by rewrite fmap_take, fmap_drop.
Qed.

Lemma included_raw s1 s2 previous_spikes :
  map raw s1 = map raw s2 -> included s1 previous_spikes = included s2 previous_spikes.
Proof. intros H. unfold included. by rewrite H. Qed.

Lemma build_histogram_raw cfg s1 s2 previous_spikes :
  map raw s1 = map raw s2 ->
  build_histogram cfg s1 previous_spikes = build_histogram cfg s2 previous_spikes.
Proof. intros H. unfold build_histogram. by rewrite (included_raw s1 s2). Qed.

Lemma nValid_raw s1 s2 : map raw s1 = map raw s2 -> nValid s1 = nValid s2.
Proof. intros H. unfold nValid. by rewrite H. Qed.

Lemma window_raw_agree cfg d1 d2 (i k : nat) :
  take k (map raw d1) = take k (map raw d2) -> (i < k)%nat ->
  map raw (subdata_at cfg d1 (Z.of_nat i)) = map raw (subdata_at cfg d2 (Z.of_nat i)).
Proof.
  intros Hk Hi. unfold subdata_at. rewrite !iloc_map. apply iloc_agree.
  intros j Hj. unfold end_index in Hj.
  rewrite <- (lookup_take_lt (map raw d1) k j), <- (lookup_take_lt (map raw d2) k j) by lia.
  by rewrite Hk.
Qed.

(** X6. Two sample sequences whose first [k] raw values agree get the
    same first [k] labels: a label depends neither on later rows nor on
    the time stamps or the accepted values. *)
Theorem labels_depend_on_earlier_raw cfg d1 d2 l1 l2 (k : nat) :
  scan cfg d1 = Ok l1 ->
  scan cfg d2 = Ok l2 ->
  take k (map raw d1) = take k (map raw d2) ->
  take k l1 = take k l2.
Proof.
  intros H1 H2 Hk.
  assert (Hlen1 := scan_length _ _ _ H1). assert (Hlen2 := scan_length _ _ _ H2).
  assert (Hmin : Nat.min k (length d1) = Nat.min k (length d2)).
  { rewrite <- (length_map raw d1), <- (length_map raw d2), <- !length_take.
    by rewrite Hk. }
  assert (Hall : forall i, (i < k)%nat -> l1 !! i = l2 !! i).
  { intros i. induction i as [i IH] using lt_wf_ind. intros Hi.
    destruct (decide (i < length d1)%nat) as [Hi1|Hi1].
    2:{ rewrite !(proj2 (lookup_ge_None _ _)) by lia. done. }
    assert (Hi2 : (i < length d2)%nat) by lia.
    destruct (lookup_lt_is_Some_2 d1 i Hi1) as [p1 Hp1].
    destruct (lookup_lt_is_Some_2 d2 i Hi2) as [p2 Hp2].
    assert (Hraw : raw p1 = raw p2).
    { assert (Hl : take k (map raw d1) !! i = take k (map raw d2) !! i) by (by rewrite Hk).
      rewrite !lookup_take_lt in Hl by done.
      change (map raw) with (fmap (M:=list) raw) in Hl.
      rewrite !list_lookup_fmap, Hp1, Hp2 in Hl. by injection Hl. }
    pose proof (window_raw_agree cfg d1 d2 i k Hk Hi) as Hwin.
    assert (Hev : evaluated cfg d1 i = evaluated cfg d2 i).
    { unfold evaluated. by rewrite (nValid_raw _ _ Hwin). }
    assert (Hprev : previous_spikes_at cfg l1 (Z.of_nat i)
                    = previous_spikes_at cfg l2 (Z.of_nat i)).
    { apply iloc_agree. intros j Hj. unfold end_index in Hj. apply IH; lia. }
    destruct (scan_label_cases _ _ _ _ _ H1 Hp1) as [[He1 ->]|(He1 & lr1 & Hb1 & ->)];
      destruct (scan_label_cases _ _ _ _ _ H2 Hp2) as [[He2 ->]|(He2 & lr2 & Hb2 & ->)];
      try done; try congruence.
    rewrite (build_histogram_raw cfg _ _ _ Hwin), Hprev, Hb2 in Hb1.
    injection Hb1 as <-. unfold classify. by rewrite Hraw. }
  apply list_eq. intros i. destruct (decide (i < k)%nat).
  - rewrite !lookup_take_lt by done. by apply Hall.
  - by rewrite !lookup_take_ge by lia.
Qed.

Lemma labels_depend_on_earlier_raw_witness :
  take 101 (replicate 100 false ++ [true; true]) = take 101 (replicate 100 false ++ [true]).
Proof.
  apply (labels_depend_on_earlier_raw default_config
           (flat_then_jump 102) (flat_then_jump 101)); by vm_compute.
Defined.

(** ** The derived metrics *)

Lemma of_nat_add (a b : nat) : (of_nat (a + b) == of_nat a + of_nat b)%Q.
Proof. unfold of_nat. by rewrite Nat2Z.inj_add, inject_Z_plus. Qed.

Lemma of_nat_pos (a : nat) : a <> 0%nat -> (0 < of_nat a)%Q.
Proof. intros H. unfold of_nat. change 0%Q with (inject_Z 0). rewrite <- Zlt_Qlt. lia. Qed.

Lemma ratio_range (a b : nat) :
  b <> 0%nat -> (a <= b)%nat -> (0 <= of_nat a / of_nat b)%Q /\ (of_nat a / of_nat b <= 1)%Q.
Proof.
  intros Hb Hab. pose proof (of_nat_pos b Hb). pose proof (of_nat_le 0 a ltac:(lia)) as H0.
  pose proof (of_nat_le a b Hab). change (of_nat 0) with 0%Q in H0. split.
  - apply Qle_shift_div_l; lra.
  - apply Qle_shift_div_r; lra.
Qed.

(** X7. When the metrics are computed, each of the seven lies between 0
    and 1, accuracy and error rate add up to 1, and so do the true
    negative rate and the false positive rate. *)
Theorem metrics_are_rates c m :
  metrics c = Ok m ->
  (accuracy m + error_rate m == 1)%Q /\
  (true_negative_rate m + false_positive_rate m == 1)%Q /\
  Forall (fun x => (0 <= x)%Q /\ (x <= 1)%Q)
    [accuracy m; precision m; sensitivity m; error_rate m;
     true_negative_rate m; false_positive_rate m; prevalence m].
Proof.
  intros H.
  destruct (proj1 (metrics_Ok c) (ex_intro _ m H)) as (Hpy & Hty & Htn).
  unfold metrics, total_of in H. repeat inv_bind H. injection H as <-.
  repeat match goal with
         | H : py_truediv _ _ = Ok _ |- _ => apply py_truediv_Ok in H as [_ ->]
         end.
  cbn [accuracy precision sensitivity error_rate true_negative_rate
       false_positive_rate prevalence].
  set (tn := n_predno_trueno c) in *. set (fp := n_predyes_trueno c) in *.
  set (fn := n_predno_trueyes c) in *. set (tp := n_predyes_trueyes c) in *.
  assert (Htot : (tn + fn + fp + tp)%nat <> 0%nat) by lia.
  split; [|split].
  - rewrite !of_nat_add.
    pose proof (of_nat_pos _ Htot) as Hp. rewrite !of_nat_add in Hp. field. lra.
  - rewrite !of_nat_add.
    pose proof (of_nat_pos _ Htn) as Hp. rewrite !of_nat_add in Hp. field. lra.
  - repeat constructor; try (apply ratio_range; [done|lia]).
Qed.

Lemma metrics_are_rates_witness :
  let c := {| n_predno_trueno := 10; n_predyes_trueno := 2;
              n_predno_trueyes := 3; n_predyes_trueyes := 5 |} in
  let m := {| accuracy := 15 # 20; precision := 5 # 7; sensitivity := 5 # 8;
              error_rate := 5 # 20; true_negative_rate := 10 # 12;
              false_positive_rate := 2 # 12; prevalence := 8 # 20 |} in
  (accuracy m + error_rate m == 1)%Q /\
  (true_negative_rate m + false_positive_rate m == 1)%Q /\
  Forall (fun x => (0 <= x)%Q /\ (x <= 1)%Q)
    [accuracy m; precision m; sensitivity m; error_rate m;
     true_negative_rate m; false_positive_rate m; prevalence m].
Proof.
  intros c m. apply (metrics_are_rates c m). vm_compute. reflexivity.
Defined.

(** ** Predicted spikes and evaluated points *)

Lemma filter_length_le {A : Type} (f g : A -> bool) (l : list A) :
  (forall x, In x l -> f x = true -> g x = true) ->
  (length (List.filter f l) <= length (List.filter g l))%nat.
Proof.
  induction l as [|x l IH]; intros H; simpl; [done|].
  assert (IH' := IH (fun y Hy => H y (or_intror Hy))).
  destruct (f x) eqn:Ef.
  - rewrite (H x (or_introl eq_refl) Ef). simpl. lia.
  - destruct (g x); simpl; lia.
Qed.

Lemma list_as_map_seq (l : list bool) :
  l = map (fun i => default false (l !! i)) (seq 0 (length l)).
Proof.
  apply list_eq. intros i. change (map ?f) with (fmap (M:=list) f).
  rewrite list_lookup_fmap. destruct (decide (i < length l)%nat) as [Hi|Hi].
  - rewrite lookup_seq_lt by done. simpl.
    destruct (lookup_lt_is_Some_2 l i Hi) as [b ->]. done.
  - rewrite lookup_seq_ge by lia. simpl. apply lookup_ge_None. lia.
Qed.

Lemma count_true_le_evaluated cfg data labels :
  scan cfg data = Ok labels -> (count_true labels <= n_evaluated cfg data)%nat.
Proof.
  intros Hscan. unfold n_evaluated. rewrite <- (scan_length _ _ _ Hscan).
  rewrite (list_as_map_seq labels) at 1. rewrite count_true_map.
  apply filter_length_le. intros i Hin Hi.
  apply in_seq in Hin. rewrite (scan_length _ _ _ Hscan) in Hin.
  destruct (lookup_lt_is_Some_2 data i ltac:(lia)) as [point Hpt].
  destruct (scan_label_cases cfg data labels i point Hscan Hpt) as [[_ Hf]|[He _]];
    [|done].
  rewrite Hf in Hi. done.
Qed.

Lemma predicted_yes_count cfg (frame : list (Row * bool)) :
  (cell cfg true true frame + cell cfg false true frame)%nat
  = count_true (map snd frame).
Proof.
  rewrite count_true_map. induction frame as [|[r p] frame IH]; [done|].
  rewrite !cell_cons. unfold in_cell. simpl.
  destruct (true_is_spike cfg r), p; simpl; rewrite <- IH; lia.
Qed.

(** X8. The number of predicted spikes in the confusion matrix (TP + FP)
    is at most the number of evaluated indices. *)
Theorem predicted_spikes_at_most_evaluated cfg data labels frame :
  scan cfg data = Ok labels ->
  assign_column data labels = Ok frame ->
  (n_predyes_trueyes (confusion_matrix cfg frame)
   + n_predyes_trueno (confusion_matrix cfg frame) <= n_evaluated cfg data)%nat.
Proof.
  intros Hscan Hcol. apply assign_column_Ok in Hcol as [Hlen ->].
  rewrite confusion_matrix_cells. simpl. rewrite predicted_yes_count.
  change (map snd) with (fmap (M:=list) (@snd Row bool)).
  rewrite snd_zip by lia. by apply count_true_le_evaluated.
Qed.

Lemma predicted_spikes_at_most_evaluated_witness :
  let data := flat_then_jump 101 in
  let frame := zip data (replicate 100 false ++ [true]) in
  (n_predyes_trueyes (confusion_matrix default_config frame)
   + n_predyes_trueno (confusion_matrix default_config frame)
   <= n_evaluated default_config data)%nat.
Proof.
  intros data frame.
  apply (predicted_spikes_at_most_evaluated default_config data
           (replicate 100 false ++ [true]) frame); by vm_compute.
Defined.

(** ** The values that enter the histogram *)

Lemma select_length_filter (subdata : list Row) : forall previous_spikes : list bool,
  length previous_spikes = length subdata ->
  length (Numpy.select (map raw subdata)
            (zip_with andb (map isfinite (map raw subdata)) (map negb previous_spikes)))
  = length (List.filter (fun rs : Row * bool => isfinite (raw rs.1) && negb rs.2)
              (zip subdata previous_spikes)).
Proof.
  induction subdata as [|r subdata IH]; intros [|s previous_spikes] Hlen; try done.
  simpl in *. destruct (isfinite (raw r) && negb s); simpl; rewrite IH by lia; done.
Qed.

Lemma included_length subdata previous_spikes values :
  length previous_spikes = length subdata ->
  included subdata previous_spikes = Ok values ->
  length values
  = length (List.filter (fun rs : Row * bool => isfinite (raw rs.1) && negb rs.2)
              (zip subdata previous_spikes)).
Proof.
  intros Hlen H. unfold included in H.
  destruct (Nat.ltb_spec 0 (length previous_spikes)) as [Hpos|Hzero].
  - unfold Numpy.logical_and in H. rewrite !length_map, Hlen, Nat.eqb_refl in H.
    simpl in H. unfold Numpy.bool_index in H.
    rewrite length_zip_with, !length_map, Hlen, Nat.min_id, Nat.eqb_refl in H.
    injection H as <-. by apply select_length_filter.
  - destruct previous_spikes; [|simpl in Hzero; lia].
    destruct subdata; [|done]. simpl in H. by injection H as <-.
Qed.

(** X1. The counts of the histogram add up to the number of window rows
    whose raw value is finite and which are not previously identified
    spikes; there are [nbins] counts and [nbins + 1] edges. *)
Theorem histogram_counts_included_rows cfg subdata previous_spikes values hist edges :
  length previous_spikes = length subdata ->
  included subdata previous_spikes = Ok values ->
  Numpy.histogram values (nbins cfg) = Ok (hist, edges) ->
  Numpy.sum hist
  = length (List.filter (fun rs : Row * bool => isfinite (raw rs.1) && negb rs.2)
              (zip subdata previous_spikes)) /\
  length hist = nbins cfg /\ length edges = S (nbins cfg).
Proof.
  intros Hlen Hinc Hhist. split; [|split].
  - rewrite (histogram_counts _ _ _ _ Hhist). by apply included_length.
  - apply histogram_inv in Hhist as (v & _ & -> & _). apply bincount_length.
  - apply histogram_inv in Hhist as (v & _ & _ & ->). apply linspace_length.
Qed.

Lemma histogram_counts_included_rows_witness :
  Numpy.sum [1; 1]%nat
  = length (List.filter (fun rs : Row * bool => isfinite (raw rs.1) && negb rs.2)
              (zip [reading 0 0; reading 1 5; reading 2 1;
                    {| Time := 3; raw := NaN; accepted := Fin 0 |}]
                 [false; true; false; false])) /\
  length [1; 1]%nat = nbins {| interval := 4; min_entries := 2; nbins := 2;
                               cdf_limits := (1 # 10, 9 # 10)%Q; buffer := 0 |} /\
  length [0 # 2; 1 # 2; 2 # 2]%Q = S (nbins {| interval := 4; min_entries := 2; nbins := 2;
                                       cdf_limits := (1 # 10, 9 # 10)%Q; buffer := 0 |}).
Proof.
  apply (histogram_counts_included_rows
           {| interval := 4; min_entries := 2; nbins := 2;
              cdf_limits := (1 # 10, 9 # 10)%Q; buffer := 0 |}
           [reading 0 0; reading 1 5; reading 2 1;
            {| Time := 3; raw := NaN; accepted := Fin 0 |}]
           [false; true; false; false] [Fin 0; Fin 1] [1; 1]%nat [0 # 2; 1 # 2; 2 # 2]%Q).
  - reflexivity.
  - reflexivity.
  - vm_compute. reflexivity.
Defined.

(** ** The shape of the CDF *)

Lemma sorted_from_nonneg (a : Q) (l : list Q) :
  (0 <= a)%Q -> StronglySorted Qle (a :: l) -> Forall (fun F => (0 <= F)%Q) (a :: l).
Proof.
  intros Ha Hs. constructor; [done|].
  apply StronglySorted_inv in Hs as [_ Hall].
  eapply List.Forall_impl; [|exact Hall]. simpl. intros F HF. lra.
Qed.

(** X2. For a histogram with at least one entry the cumulative
    distribution has one finite value per bin, none of them negative,
    and never decreases. *)
Theorem cdf_never_decreases hist :
  Numpy.sum hist <> 0%nat ->
  exists cdf,
    cdf_of hist = map Fin cdf /\
    length cdf = length hist /\
    Forall (fun F => (0 <= F)%Q) cdf /\
    StronglySorted Qle cdf.
Proof.
  intros Hnz. unfold cdf_of. set (s := Numpy.sum hist) in *.
  pose proof (of_nat_pos s Hnz) as Hp.
  assert (Hs : Qeq_bool (of_nat s) 0 = false) by (apply Qeq_bool_false; lra).
  assert (Hm : map (fun h => fdiv (Fin (of_nat h)) (Fin (of_nat s))) hist
               = map Fin (map (fun h => Qred (of_nat h / of_nat s)) hist)).
  { rewrite map_map. apply map_ext. intros h. unfold fdiv. by rewrite Hs. }
  rewrite Hm.
  assert (Hpos : Forall (fun x => (0 <= x)%Q) (map (fun h => Qred (of_nat h / of_nat s)) hist)).
  { apply List.Forall_forall. intros x Hx. apply in_map_iff in Hx as (h & <- & _).
    rewrite Qred_correct. apply Qle_shift_div_l; [done|].
    pose proof (of_nat_le 0 h ltac:(lia)) as H0. change (of_nat 0) with 0%Q in H0. lra. }
  assert (Hlen : length (map (fun h => Qred (of_nat h / of_nat s)) hist) = length hist)
    by apply length_map.
  destruct (map (fun h => Qred (of_nat h / of_nat s)) hist) as [|x l] eqn:El.
  { exists []. simpl in *. repeat split; try done; constructor. }
  apply Forall_cons in Hpos as [Hx Hpos].
  destruct (cumsum_from_finite l x Hpos) as (qs & Hqs & Hsorted).
  exists (x :: qs). simpl. rewrite Hqs.
  split; [done|]. split; [|split; [by apply sorted_from_nonneg|done]].
  rewrite <- Hlen. simpl. f_equal.
  apply (f_equal length) in Hqs. rewrite cumsum_from_length, !length_map in Hqs. done.
Qed.

Lemma cdf_never_decreases_witness :
  exists cdf,
    cdf_of [1; 0; 3]%nat = map Fin cdf /\
    length cdf = length [1; 0; 3]%nat /\
    Forall (fun F => (0 <= F)%Q) cdf /\
    StronglySorted Qle cdf.
Proof. apply (cdf_never_decreases [1; 0; 3]%nat). simpl. lia. Defined.


(** ** The interval and the range of the histogram *)

Lemma foldl_qmin_in (l : list Q) : forall x, In (foldl Numpy.qmin x l) (x :: l).
Proof.
  induction l as [|a l IH]; intros x; simpl; [by left|].
  destruct (IH (Numpy.qmin x a)) as [H|H]; [|by right; right].
  rewrite <- H. unfold Numpy.qmin. destruct (Qle_bool x a); [by left|right; by left].
Qed.

Lemma foldl_qmax_in (l : list Q) : forall x, In (foldl Numpy.qmax x l) (x :: l).
Proof.
  induction l as [|a l IH]; intros x; simpl; [by left|].
  destruct (IH (Numpy.qmax x a)) as [H|H]; [|by right; right].
  rewrite <- H. unfold Numpy.qmax. destruct (Qle_bool x a); [right; by left|by left].
Qed.

(** Every bin center lies between the first and the last edge. *)
Lemma bincenters_between start stop (n : nat) c :
  (start <= stop)%Q -> In c (bincenters (Numpy.linspace start stop n)) ->
  (start <= c)%Q /\ (c <= stop)%Q.
Proof.
  intros Hle Hin. unfold Numpy.linspace in Hin. rewrite bincenters_map in Hin.
  apply in_map_iff in Hin as (k & <- & Hk). apply in_seq in Hk.
  assert (Hn : n <> 0%nat) by (destruct Hk as [_ Hk]; simpl in Hk; lia).
  pose proof (of_nat_pos n Hn) as Hp.
  set (step := ((stop - start) / of_nat n)%Q).
  assert (Hstep : (0 <= step)%Q) by (apply Qle_shift_div_l; lra).
  assert (Hfull : (of_nat n * step == stop - start)%Q) by (unfold step; field; lra).
  pose proof (of_nat_le 0 k ltac:(lia)) as Hk0. change (of_nat 0) with 0%Q in Hk0.
  pose proof (of_nat_le (S k) n ltac:(lia)) as Hkn. rewrite of_nat_S in *.
  set (u := of_nat k) in *. set (w := of_nat n) in *.
  assert (E : (start + u * step + (start + (u + 1) * step - (start + u * step)) / 2
               == start + u * step + step * (1 # 2))%Q) by field.
  assert (H0 : (0 <= u * step)%Q) by (apply Qmult_le_0_compat; lra).
  assert (H1 : ((u + 1) * step <= w * step)%Q) by (apply Qmult_le_compat_r; lra).
  rewrite E. clearbody step u w. split; lra.
Qed.

(** Both bounds of the estimator lie between two bin centers. *)
Lemma estimate_between cdf bincenter limits lower upper :
  (cdf = replicate (length cdf) NaN \/
   exists qs, cdf = map Fin qs /\ StronglySorted Qle qs) ->
  StronglySorted Qle bincenter ->
  estimate cdf bincenter limits = Ok (lower, upper) ->
  exists c_low c_high,
    In c_low bincenter /\ In c_high bincenter /\
    (c_low <= lower)%Q /\ (upper <= c_high)%Q.
Proof.
  intros Hcdf Hc H. unfold estimate in H.
  inv_bind H. rename a into icdf, Ha into Hicdf.
  inv_bind H. rename a into lo, Ha into Hlo.
  inv_bind H. rename a into up, Ha into Hup.
  injection H as <- <-.
  pose proof Hicdf as Hinv. apply interp1d_inv in Hinv as (Hlen & H2 & _).
  destruct bincenter as [|c0 bincenter]; [simpl in *; lia|].
  assert (Hmin : Numpy.py_min (c0 :: bincenter) = Ok lo ->
                 exists c, In c (c0 :: bincenter) /\ (c <= lo)%Q).
  { intros [= <-]. exists (foldl Numpy.qmin c0 bincenter).
    split; [apply foldl_qmin_in|lra]. }
  assert (Hmax : Numpy.py_max (c0 :: bincenter) = Ok up ->
                 exists c, In c (c0 :: bincenter) /\ (up <= c)%Q).
  { intros [= <-]. exists (foldl Numpy.qmax c0 bincenter).
    split; [apply foldl_qmax_in|lra]. }
  assert (Hlow : exists c, In c (c0 :: bincenter) /\ (c <= lo)%Q).
  { destruct Hcdf as [Hnan|(qs & -> & HF)].
    - rewrite Hnan in Hicdf. rewrite (icdf_nan _ _ _ limits.1 Hicdf) in Hlo. auto.
    - destruct qs as [|F0 qs]; [simpl in *; lia|].
      destruct (icdf_finite F0 qs c0 bincenter icdf limits.1 HF Hicdf) as [E|[Hx E]];
        rewrite E in Hlo; [auto|].
      destruct (walk_range qs bincenter F0 c0 limits.1 HF Hc Hx) as (q & Hq & Hq0 & _).
      rewrite Hq in Hlo. injection Hlo as <-. exists c0. split; [by left|done]. }
  assert (Hhigh : exists c, In c (c0 :: bincenter) /\ (up <= c)%Q).
  { destruct Hcdf as [Hnan|(qs & -> & HF)].
    - rewrite Hnan in Hicdf. rewrite (icdf_nan _ _ _ limits.2 Hicdf) in Hup. auto.
    - destruct qs as [|F0 qs]; [simpl in *; lia|].
      destruct (icdf_finite F0 qs c0 bincenter icdf limits.2 HF Hicdf) as [E|[Hx E]];
        rewrite E in Hup; [auto|].
      destruct (walk_range qs bincenter F0 c0 limits.2 HF Hc Hx) as (q & Hq & _ & c & Hin & Hqc).
      rewrite Hq in Hup. injection Hup as <-. by exists c. }
  destruct Hlow as (cl & Hcl & Hl). destruct Hhigh as (ch & Hch & Hh).
  by exists cl, ch.
Qed.

(** X4. The interval never reaches further than the buffer beyond the
    rounded range of the histogram: the lower bound is at least the
    rounded first edge less the buffer, the upper bound at most the
    rounded last edge plus the buffer. *)
Theorem interval_within_histogram_range cfg subdata previous_spikes values hist edges
    lower upper first_edge last_edge :
  included subdata previous_spikes = Ok values ->
  Numpy.histogram values (nbins cfg) = Ok (hist, edges) ->
  head edges = Some first_edge -> last edges = Some last_edge ->
  build_histogram cfg subdata previous_spikes = Ok (lower, upper) ->
  (Numpy.round first_edge 3 - buffer cfg <= lower)%Q /\
  (upper <= Numpy.round last_edge 3 + buffer cfg)%Q.
Proof.
  intros Hinc Hhist Hfirst Hlast H. unfold build_histogram in H.
  rewrite Hinc in H. simpl in H. rewrite Hhist in H. simpl in H.
  inv_bind H. destruct a as [lo up]. rename Ha into Hest. injection H as <- <-.
  pose proof Hhist as Hh. apply histogram_inv in Hh as (v & _ & _ & ->).
  pose proof (outer_edges_le v) as Hle.
  set (a := (Numpy.outer_edges v).1) in *. set (b := (Numpy.outer_edges v).2) in *.
  destruct (estimate_between _ _ _ _ _
              ltac:(destruct (cdf_of_cases hist) as [Hn|Hf];
                    [left; by rewrite cdf_of_length | by right])
              (bincenters_sorted a b (nbins cfg) Hle) Hest)
    as (cl & ch & Hcl & Hch & Hl & Hu).
  apply (bincenters_between a b _ _ Hle) in Hcl as [Hcl _].
  apply (bincenters_between a b _ _ Hle) in Hch as [_ Hch].
  assert (Hfe : (first_edge == a)%Q).
  { unfold Numpy.linspace in Hfirst. simpl in Hfirst. injection Hfirst as <-.
    change (of_nat 0) with 0%Q. lra. }
  assert (Hle' : (last_edge == b)%Q).
  { assert (Hn : nbins cfg <> 0%nat).
    { unfold Numpy.histogram in Hhist. by destruct (Nat.eqb_spec (nbins cfg) 0). }
    unfold Numpy.linspace in Hlast. rewrite seq_S, List.map_app in Hlast. simpl in Hlast.
    rewrite last_snoc in Hlast. injection Hlast as <-.
    pose proof (of_nat_pos _ Hn). field. lra. }
  pose proof (round_monotone first_edge lo 3 ltac:(lra)).
  pose proof (round_monotone up last_edge 3 ltac:(lra)).
  split; lra.
Qed.

Lemma interval_within_histogram_range_witness :
  let cfg := {| interval := 4; min_entries := 2; nbins := 2;
                cdf_limits := (1 # 10, 9 # 10)%Q; buffer := 1 # 10 |} in
  (Numpy.round (0 # 2) 3 - buffer cfg <= 1500 # 10000)%Q /\
  (7500 # 10000 <= Numpy.round (2 # 2) 3 + buffer cfg)%Q.
Proof.
  intros cfg.
  apply (interval_within_histogram_range cfg [reading 0 0; reading 1 1] [false; false]
           [Fin 0; Fin 1] [1; 1]%nat [0 # 2; 1 # 2; 2 # 2]%Q
           (1500 # 10000)%Q (7500 # 10000)%Q (0 # 2)%Q (2 # 2)%Q).
  - reflexivity.
  - vm_compute. reflexivity.
  - reflexivity.
  - reflexivity.
  - vm_compute. reflexivity.
Defined.

(** ** Sequences without an evaluated point *)

(** Rows that are not evaluated leave the labels as they are. *)
Lemma scan_from_unevaluated cfg data rows : forall index labels,
  (forall k, (k < length rows)%nat -> evaluated cfg data (index + k) = false) ->
  scan_from cfg data index rows labels = Ok labels.
Proof.
  induction rows as [|point rows IH]; intros index labels Hnone; simpl; [done|].
  assert (Hbody : scan_body cfg data labels index point = Ok labels).
  { apply scan_body_Ok. left. split; [|done].
    rewrite <- (Nat.add_0_r index). apply Hnone. simpl. lia. }
  rewrite Hbody. simpl. apply IH. intros k Hk.
  replace (S index + k)%nat with (index + S k)%nat by lia. apply Hnone. simpl. lia.
Qed.

Lemma scan_without_evaluated_point cfg data :
  n_evaluated cfg data = 0%nat -> scan cfg data = Ok (replicate (length data) false).
Proof.
  intros Hnone. apply scan_from_unevaluated. intros k Hk. simpl.
  destruct (evaluated cfg data k) eqn:He; [|done]. exfalso.
  unfold n_evaluated in Hnone. apply length_zero_iff_nil in Hnone.
  assert (Hin : In k (List.filter (evaluated cfg data) (seq 0 (length data)))).
  { apply filter_In. split; [|done]. apply in_seq. lia. }
  by rewrite Hnone in Hin.
Qed.

(** X10. When no index of the sequence is evaluated (a sequence no
    longer than the warm-up, or one whose windows never hold enough
    finite values), the main block raises [ZeroDivisionError]: no point
    is predicted a spike, and the precision (or, for no rows at all, the
    accuracy) divides by zero. *)
Theorem main_raises_without_evaluated_point cfg data :
  (2 <= nbins cfg)%nat ->
  n_evaluated cfg data = 0%nat ->
  main cfg data = Raise ZeroDivisionError.
Proof.
  intros Hbins Hnone. pose proof (scan_without_evaluated_point cfg data Hnone) as Hscan.
  set (labels := replicate (length data) false) in *.
  pose proof (scan_length _ _ _ Hscan) as Hlen.
  pose proof (count_true_le_evaluated _ _ _ Hscan) as Hcount.
  unfold main. rewrite Hscan. simpl.
  rewrite (proj2 (assign_column_Ok data labels (zip data labels)) (conj Hlen eq_refl)).
  simpl. rewrite metrics_raises; [done|]. left.
  rewrite confusion_matrix_cells. simpl. rewrite predicted_yes_count.
  change (map snd) with (fmap (M:=list) (@snd Row bool)).
  rewrite snd_zip by lia. lia.
Qed.

Lemma main_raises_without_evaluated_point_witness :
  main default_config (flat_then_jump 100) = Raise ZeroDivisionError.
Proof.
  apply (main_raises_without_evaluated_point default_config (flat_then_jump 100)).
  - simpl. lia.
  - vm_compute. reflexivity.
Defined.


(** * Station groups *)

Lemma sorted_elem_of (l : list Z) x : x ∈ DataCleaner.sorted l <-> x ∈ l.
Proof. unfold DataCleaner.sorted. by rewrite merge_sort_Permutation. Qed.

Lemma unique_elem_of (l : list Z) x : x ∈ DataCleaner.unique l <-> x ∈ l.
Proof.
  unfold DataCleaner.unique. by rewrite merge_sort_Permutation, elem_of_remove_dups.
Qed.

Lemma sorted_Sorted (l : list Z) : Sorted Z.le (DataCleaner.sorted l).
Proof. apply (Sorted_merge_sort Z.le). Qed.

Lemma unique_Sorted (l : list Z) : Sorted Z.le (DataCleaner.unique l).
Proof. apply (Sorted_merge_sort Z.le). Qed.

Lemma unique_NoDup (l : list Z) : NoDup (DataCleaner.unique l).
Proof.
  unfold DataCleaner.unique. rewrite merge_sort_Permutation. apply NoDup_remove_dups.
Qed.

(** The ids after the inner loop has placed a row: those of the groups
    and those of the row. *)
Lemma place_elem_of subarray : forall station_list station_list' x,
  DataCleaner.place subarray station_list = Some station_list' ->
  x ∈ mjoin station_list' <-> x ∈ mjoin station_list \/ x ∈ subarray.
Proof.
  intros station_list. induction station_list as [|prevarray rest IH];
    intros station_list' x H; simpl in H; [done|].
  case_bool_decide as Heq.
  - injection H as <-. subst prevarray. rewrite !list_elem_of_join. split; [by left|].
    intros [H|H]; [done|]. exists subarray. split; [done|]. by left.
  - destruct (DataCleaner.in1d_any subarray prevarray).
    + injection H as <-. simpl. rewrite !elem_of_app, unique_elem_of, elem_of_app. tauto.
    + destruct (DataCleaner.place subarray rest) as [rest'|] eqn:E; [|done].
      injection H as <-. simpl. rewrite !elem_of_app, (IH rest' x eq_refl). tauto.
Qed.

Lemma group_step_elem_of station_list row x :
  x ∈ mjoin (DataCleaner.group_step station_list row)
  <-> x ∈ mjoin station_list \/ x = row.1 \/ x = row.2.
Proof.
  unfold DataCleaner.group_step.
  assert (Hrow : x ∈ DataCleaner.sorted [row.1; row.2] <-> x = row.1 \/ x = row.2).
  { rewrite sorted_elem_of, !elem_of_cons, elem_of_nil. tauto. }
  destruct (DataCleaner.place _ station_list) as [l|] eqn:E.
  - rewrite (place_elem_of _ _ _ x E), Hrow. done.
  - rewrite join_app, elem_of_app. simpl. rewrite app_nil_r, Hrow. done.
Qed.

Lemma foldl_group_step_elem_of station_df : forall station_list x,
  x ∈ mjoin (foldl DataCleaner.group_step station_list station_df)
  <-> x ∈ mjoin station_list \/ exists row, row ∈ station_df /\ (x = row.1 \/ x = row.2).
Proof.
  induction station_df as [|row station_df IH]; intros station_list x; simpl.
  - split; [by left|]. intros [H|(row & Hrow & _)]; [done|]. by apply elem_of_nil in Hrow.
  - rewrite IH, group_step_elem_of. split.
    + intros [[H|H]|(r & Hr & Hx)]; [by left| |].
      * right. exists row. split; [by left|done].
      * right. exists r. split; [by right|done].
    + intros [H|(r & Hr & Hx)]; [left; by left|].
      apply elem_of_cons in Hr as [->|Hr]; [left; by right|].
      right. by exists r.
Qed.

(** X11. The ids in the groups are exactly the station ids and neighbor
    ids of the sheet: every station of the sheet is in a group, and no
    other id is. *)
Theorem grouped_ids_are_sheet_ids station_df x :
  x ∈ DataCleaner.station_ids (DataCleaner._group_stations_by_neighbor station_df)
  <-> exists row, row ∈ station_df /\ (x = row.1 \/ x = row.2).
Proof.
  unfold DataCleaner.station_ids, DataCleaner._group_stations_by_neighbor.
  rewrite foldl_group_step_elem_of. simpl. split; [|by right].
  intros [H|H]; [|done]. by apply elem_of_nil in H.
Qed.

(** ** The shape of the groups *)

Lemma place_shape subarray : forall station_list station_list',
  DataCleaner.place subarray station_list = Some station_list' ->
  Forall (fun g => Sorted Z.le g /\ g <> []) station_list ->
  Forall (fun g => Sorted Z.le g /\ g <> []) station_list' /\
  length station_list' = length station_list.
Proof.
  intros station_list. induction station_list as [|prevarray rest IH];
    intros station_list' H Hall; simpl in H; [done|].
  apply Forall_cons in Hall as [[Hs Hne] Hall].
  case_bool_decide as Heq.
  - injection H as <-. split; [|done]. by constructor.
  - destruct (DataCleaner.in1d_any subarray prevarray).
    + injection H as <-. split; [|done]. constructor; [|done].
      split; [apply unique_Sorted|].
      destruct prevarray as [|p prevarray]; [done|]. intros Hnil.
      assert (Hp : p ∈ DataCleaner.unique ((p :: prevarray) ++ subarray)).
      { apply unique_elem_of. by left. }
      rewrite Hnil in Hp. by apply elem_of_nil in Hp.
    + destruct (DataCleaner.place subarray rest) as [rest'|] eqn:E; [|done].
      injection H as <-. destruct (IH rest' eq_refl Hall) as [Hall' Hlen].
      split; [by constructor|]. simpl. by rewrite Hlen.
Qed.

Lemma group_step_shape station_list row :
  Forall (fun g => Sorted Z.le g /\ g <> []) station_list ->
  Forall (fun g => Sorted Z.le g /\ g <> []) (DataCleaner.group_step station_list row) /\
  (length (DataCleaner.group_step station_list row) <= S (length station_list))%nat.
Proof.
  intros Hall. unfold DataCleaner.group_step.
  destruct (DataCleaner.place _ station_list) as [l|] eqn:E.
  - destruct (place_shape _ _ _ E Hall) as [Hall' Hlen]. split; [done|lia].
  - split; [|rewrite length_app; simpl; lia].
    apply Forall_app. split; [done|]. constructor; [|done].
    split; [apply sorted_Sorted|]. intros Hnil.
    assert (Hp : row.1 ∈ DataCleaner.sorted [row.1; row.2]).
    { apply sorted_elem_of. by left. }
    rewrite Hnil in Hp. by apply elem_of_nil in Hp.
Qed.

Lemma foldl_group_step_shape station_df : forall station_list,
  Forall (fun g => Sorted Z.le g /\ g <> []) station_list ->
  Forall (fun g => Sorted Z.le g /\ g <> [])
    (foldl DataCleaner.group_step station_list station_df) /\
  (length (foldl DataCleaner.group_step station_list station_df)
   <= length station_list + length station_df)%nat.
Proof.
  induction station_df as [|row station_df IH]; intros station_list Hall; simpl.
  - split; [done|lia].
  - destruct (group_step_shape station_list row Hall) as [Hall' Hlen].
    destruct (IH _ Hall') as [Hall'' Hlen']. split; [done|lia].
Qed.

(** X12. Every group is not empty and lists its ids in ascending order,
    and there are at most as many groups as rows in the sheet. *)
Theorem groups_are_sorted_and_few station_df :
  Forall (fun g => Sorted Z.le g /\ g <> [])
    (DataCleaner._group_stations_by_neighbor station_df) /\
  (length (DataCleaner._group_stations_by_neighbor station_df) <= length station_df)%nat.
Proof.
  unfold DataCleaner._group_stations_by_neighbor.
  destruct (foldl_group_step_shape station_df [] ltac:(constructor)) as [Hall Hlen].
  split; [done|]. simpl in Hlen. lia.
Qed.
